(** * python-sscha: the [Ensemble] class of [Modules/Ensemble.py]

    A shallow embedding of the ensemble store, the importance-sampling
    reweighting, the weighted estimators and the free-energy gradient.

    Conventions of the embedding.
    - A Python [float] / numpy [float64] is a real number of [R]: rounding
      and overflow are outside the model. The gradient computation, which
      divides by zero on its own data, works in the reals extended with the
      infinities and NaN.
    - A numpy array is a shape together with its row-major data.
    - An attribute that the code binds first to the Python list [[]] and later
      to a numpy array is a value of the tagged union [pyobj].
    - A method is a function from the object's state to an outcome and the
      state it leaves behind; an exception keeps the mutations already made.
    - The collaborators of [cellconstructor] (structures, dynamical matrices,
      the file readers of numpy) are parameters of the development. *)

From Stdlib Require Import String Ascii DecimalString.
From Stdlib Require Import Reals Lra Lia ZArith Bool Arith List.
Import ListNotations.

Local Open Scope nat_scope.

(** ** Exceptions and outcomes *)

Inductive exn : Type :=
| IOError (msg : string)
| IndexError (msg : string)
| TypeError (msg : string)
| ValueError (msg : string)
| KeyError (msg : string)
| External (code : nat).

Definition result (A : Type) : Type := (exn + A)%type.

Definition ok {A : Type} (x : A) : result A := inr x.
Definition raise {A : Type} (e : exn) : result A := inl e.

Definition rbind {A B : Type} (r : result A) (k : A -> result B) : result B :=
  match r with
  | inl e => inl e
  | inr x => k x
  end.

Notation "'let?' x ':=' r 'in' k" := (rbind r (fun x => k))
  (at level 10, x pattern, r at level 100, k at level 200).

(** ** Sums of reals *)

Definition Rsum (l : list R) : R := fold_right Rplus 0%R l.

Definition Rsum_over (n : nat) (f : nat -> R) : R := Rsum (map f (seq 0 n)).

(** ** numpy arrays *)

Module Np.

Record ndarray : Type := mkarr { shape : list nat; data : list R }.

Definition size_of (sh : list nat) : nat := fold_right Nat.mul 1 sh.

Definition wf (a : ndarray) : Prop := length (data a) = size_of (shape a).

(** [np.zeros(shape)], [np.ones(shape)] and a 0-dimensional scalar. *)
Definition zeros (sh : list nat) : ndarray := mkarr sh (repeat 0%R (size_of sh)).
Definition ones (sh : list nat) : ndarray := mkarr sh (repeat 1%R (size_of sh)).
Definition scalar (x : R) : ndarray := mkarr [] [x].

(** [np.sum(a)] with no axis: the sum of every entry. *)
Definition sum (a : ndarray) : R := Rsum (data a).

(** Row-major multi-indices. *)
Fixpoint unravel (sh : list nat) (k : nat) : list nat :=
  match sh with
  | [] => []
  | _ :: sh' => (k / size_of sh') :: unravel sh' (k mod size_of sh')
  end.

Fixpoint ravel (sh idx : list nat) : nat :=
  match sh, idx with
  | _ :: sh', i :: idx' => i * size_of sh' + ravel sh' idx'
  | _, _ => 0
  end.

(** Broadcasting: shapes are aligned on the right, an axis of length 1 is
    stretched, and an index along a stretched axis reads entry 0. *)
Definition pad (sh : list nat) (n : nat) : list nat :=
  repeat 1 (n - length sh) ++ sh.

Fixpoint clip (sh idx : list nat) : list nat :=
  match sh, idx with
  | d :: sh', i :: idx' => (if d =? 1 then 0 else i) :: clip sh' idx'
  | _, _ => []
  end.

Fixpoint bshape (pa pb : list nat) : option (list nat) :=
  match pa, pb with
  | [], [] => Some []
  | a :: pa', b :: pb' =>
      match bshape pa' pb' with
      | None => None
      | Some r =>
          if a =? b then Some (a :: r)
          else if a =? 1 then Some (b :: r)
          else if b =? 1 then Some (a :: r)
          else None
      end
  | _, _ => None
  end.

Definition broadcast_shapes (sa sb : list nat) : option (list nat) :=
  let n := Nat.max (length sa) (length sb) in
  bshape (pad sa n) (pad sb n).

(** Entry [k] (row-major, in the result shape [rs]) of [a] broadcast to [rs]. *)
Definition bget (a : ndarray) (rs : list nat) (k : nat) : R :=
  let pa := pad (shape a) (length rs) in
  nth (ravel pa (clip pa (unravel rs k))) (data a) 0%R.

Definition binop (f : R -> R -> R) (a b : ndarray) : result ndarray :=
  match broadcast_shapes (shape a) (shape b) with
  | None => raise (ValueError "operands could not be broadcast together")
  | Some rs =>
      ok (mkarr rs (map (fun k => f (bget a rs k) (bget b rs k))
                        (seq 0 (size_of rs))))
  end.

Definition sub : ndarray -> ndarray -> result ndarray := binop Rminus.
Definition mul : ndarray -> ndarray -> result ndarray := binop Rmult.

(** [a * x] and [a / x] with a Python scalar [x]; [a ** 2]. *)
Definition map_arr (f : R -> R) (a : ndarray) : ndarray :=
  mkarr (shape a) (map f (data a)).
Definition square (a : ndarray) : ndarray := map_arr (fun x => (x * x)%R) a.

(** The value stored by an assignment into a block of shape [target]:
    leading axes of length 1 in excess are dropped, then the value is
    broadcast to [target]. *)
Fixpoint strip_ones (sh : list nat) (n : nat) : list nat :=
  match sh with
  | 1 :: sh' => if n <? length sh then strip_ones sh' n else sh
  | _ => sh
  end.

Fixpoint fits (pv target : list nat) : bool :=
  match pv, target with
  | [], [] => true
  | v :: pv', t :: target' => ((v =? t) || (v =? 1)) && fits pv' target'
  | _, _ => false
  end.

Definition broadcast_to (v : ndarray) (target : list nat) : option (list R) :=
  let sv := strip_ones (shape v) (length target) in
  if length sv <=? length target then
    let v' := mkarr sv (data v) in
    if fits (pad sv (length target)) target
    then Some (map (bget v' target) (seq 0 (size_of target)))
    else None
  else None.

(** [a[i] = v] for an integer [i >= 0]: block [i] along the first axis. *)
Definition setitem (a : ndarray) (i : nat) (v : ndarray) : result ndarray :=
  match shape a with
  | [] => raise (IndexError "too many indices for array")
  | d :: blk =>
      if i <? d then
        match broadcast_to v blk with
        | None => raise (ValueError "could not broadcast input array")
        | Some xs =>
            ok (mkarr (shape a)
                  (firstn (i * size_of blk) (data a) ++ xs
                     ++ skipn ((i + 1) * size_of blk) (data a)))
        end
      else raise (IndexError "index is out of bounds for axis 0")
  end.

(** [a[i, :, :] = v]: as [a[i] = v], on an array of at least three axes. *)
Definition setitem3 (a : ndarray) (i : nat) (v : ndarray) : result ndarray :=
  if length (shape a) <? 3
  then raise (IndexError "too many indices for array")
  else setitem a i v.

(** [a[i]] read, for an integer [i >= 0]: block [i] along the first axis, a
    0-dimensional array when [a] has one axis. *)
Definition getitem (a : ndarray) (i : nat) : result ndarray :=
  match shape a with
  | d :: blk =>
      if i <? d then
        ok (mkarr blk (firstn (size_of blk) (skipn (i * size_of blk) (data a))))
      else raise (IndexError "index is out of bounds for axis 0")
  | [] => raise (IndexError "too many indices for array")
  end.

(** [a[i, :, :]] read from an array of at least three axes: block [i]. *)
Definition getitem3 (a : ndarray) (i : nat) : result ndarray :=
  match shape a with
  | d :: blk =>
      if length blk <? 2 then raise (IndexError "too many indices for array")
      else if i <? d then
        ok (mkarr blk (firstn (size_of blk) (skipn (i * size_of blk) (data a))))
      else raise (IndexError "index is out of bounds for axis 0")
  | [] => raise (IndexError "too many indices for array")
  end.

(** [a.reshape(n)]: the entries in row-major order, when there are [n]. *)
Definition reshape1 (a : ndarray) (n : nat) : result (list R) :=
  if size_of (shape a) =? n then ok (data a)
  else raise (ValueError "cannot reshape array")%string.

(** [acc += c]: the broadcast result must have the shape of [acc]. *)
Definition iadd (acc c : ndarray) : result ndarray :=
  let? r := binop Rplus acc c in
  if list_eq_dec Nat.eq_dec (shape r) (shape acc) then ok r
  else raise (ValueError "non-broadcastable output operand").

(** [np.tile(a, reps)]: shape and repetitions are aligned on the right (padded
    with 1), axis [j] of the result has length [reps_j * shape_j], and an
    index is read modulo the length of the axis of [a]. *)
Fixpoint zip_mul (xs ys : list nat) : list nat :=
  match xs, ys with
  | x :: xs', y :: ys' => (x * y) :: zip_mul xs' ys'
  | _, _ => []
  end.

Fixpoint wrap (sh idx : list nat) : list nat :=
  match sh, idx with
  | d :: sh', i :: idx' => (i mod d) :: wrap sh' idx'
  | _, _ => []
  end.

Definition tile (a : ndarray) (reps : list nat) : ndarray :=
  let n := Nat.max (length (shape a)) (length reps) in
  let sa := pad (shape a) n in
  let rs := zip_mul (pad reps n) sa in
  mkarr rs (map (fun k => nth (ravel sa (wrap sa (unravel rs k))) (data a) 0%R)
                (seq 0 (size_of rs))).

End Np.

(** ** Python values held by the attributes of an [Ensemble] *)

Inductive pyobj : Type :=
| PyList (items : list R)
| NdArray (a : Np.ndarray).

(** [np.asarray]: what numpy makes of an operand before it computes. *)
Definition asarray (v : pyobj) : Np.ndarray :=
  match v with
  | PyList l => Np.mkarr [length l] l
  | NdArray a => a
  end.

Definition is_list (v : pyobj) : bool :=
  match v with PyList _ => true | NdArray _ => false end.

(** [x - y] and [x * y]: two Python lists have no such operator; as soon as
    one operand is an array the other is converted and both are broadcast. *)
Definition py_sub (x y : pyobj) : result pyobj :=
  if is_list x && is_list y
  then raise (TypeError "unsupported operand type(s) for -: 'list' and 'list'")
  else let? r := Np.sub (asarray x) (asarray y) in ok (NdArray r).

Definition py_mul (x y : pyobj) : result pyobj :=
  if is_list x && is_list y
  then raise (TypeError "can't multiply sequence by non-int of type 'list'")
  else let? r := Np.mul (asarray x) (asarray y) in ok (NdArray r).

(** [x ** 2]. *)
Definition py_square (x : pyobj) : result pyobj :=
  match x with
  | PyList _ =>
      raise (TypeError "unsupported operand type(s) for ** or pow(): 'list' and 'int'")
  | NdArray a => ok (NdArray (Np.square a))
  end.

(** [np.sum(x)]. *)
Definition py_sum (x : pyobj) : R := Np.sum (asarray x).

(** [x[i]] read, for an integer [i >= 0]: an entry of a list, a block of an
    array. The value is kept as an array, 0-dimensional for a number. *)
Definition py_getitem (what : string) (x : pyobj) (i : nat) : result Np.ndarray :=
  match x with
  | PyList l =>
      match nth_error l i with
      | Some v => ok (Np.scalar v)
      | None => raise (IndexError what)
      end
  | NdArray a => Np.getitem a i
  end.

(** [x[i] = v] with a number [v]. *)
Fixpoint list_set {A : Type} (l : list A) (i : nat) (v : A) : list A :=
  match l, i with
  | [], _ => []
  | _ :: l', 0 => v :: l'
  | x :: l', S i' => x :: list_set l' i' v
  end.

Definition py_setitem (what : string) (x : pyobj) (i : nat) (v : R) : result pyobj :=
  match x with
  | PyList l =>
      if i <? length l then ok (PyList (list_set l i v))
      else raise (IndexError what)
  | NdArray a => let? a' := Np.setitem a i (Np.scalar v) in ok (NdArray a')
  end.

(** [x[i, :, :] = v]: a list cannot be indexed by a tuple. *)
Definition py_setitem3 (x : pyobj) (i : nat) (v : Np.ndarray) : result pyobj :=
  match x with
  | PyList _ => raise (TypeError "list indices must be integers or slices, not tuple")
  | NdArray a => let? a' := Np.setitem3 a i v in ok (NdArray a')
  end.

(** [x[i, :, :]] read. *)
Definition py_getitem3 (x : pyobj) (i : nat) : result Np.ndarray :=
  match x with
  | PyList _ => raise (TypeError "list indices must be integers or slices, not tuple")
  | NdArray a => Np.getitem3 a i
  end.

(** [x[i]] evaluated for its effect only (an expression statement). *)
Definition py_touch (what : string) (x : pyobj) (i : nat) : result unit :=
  match x with
  | PyList l => if i <? length l then ok tt else raise (IndexError what)
  | NdArray a =>
      match Np.shape a with
      | [] => raise (IndexError what)
      | d :: _ => if i <? d then ok tt else raise (IndexError what)
      end
  end.

(** ** Numbers that may not be finite

    The gradient computation divides by quantities that are zero on inputs it
    always meets (the diagonal of [w_mu^2 - w_nu^2]). There numpy does not
    raise: it returns an infinity, and an infinity times zero is NaN. The
    numbers of that computation are therefore reals extended with the two
    infinities and NaN, with the IEEE rules for these values; rounding and
    overflow stay outside the model, and zero carries no sign, so that
    [1 / 0] is [+inf]. *)

Inductive xreal : Type :=
| Fin (x : R)
| PInf
| NInf
| NaN.

Module X.

Local Open Scope R_scope.

Definition neg (a : xreal) : xreal :=
  match a with
  | Fin x => Fin (- x)
  | PInf => NInf
  | NInf => PInf
  | NaN => NaN
  end.

Definition add (a b : xreal) : xreal :=
  match a, b with
  | NaN, _ | _, NaN => NaN
  | Fin x, Fin y => Fin (x + y)
  | PInf, NInf | NInf, PInf => NaN
  | PInf, _ | _, PInf => PInf
  | NInf, _ | _, NInf => NInf
  end.

(** An infinity times the finite [x]: NaN for [x = 0], else the sign rule. *)
Definition inf_times (positive : bool) (x : R) : xreal :=
  if Req_dec_T x 0 then NaN
  else if Rlt_dec 0 x then (if positive then PInf else NInf)
  else (if positive then NInf else PInf).

Definition mul (a b : xreal) : xreal :=
  match a, b with
  | NaN, _ | _, NaN => NaN
  | Fin x, Fin y => Fin (x * y)
  | Fin x, PInf | PInf, Fin x => inf_times true x
  | Fin x, NInf | NInf, Fin x => inf_times false x
  | PInf, PInf | NInf, NInf => PInf
  | PInf, NInf | NInf, PInf => NInf
  end.

Definition inv (a : xreal) : xreal :=
  match a with
  | Fin x => if Req_dec_T x 0 then PInf else Fin (/ x)
  | PInf | NInf => Fin 0
  | NaN => NaN
  end.

Definition div (a b : xreal) : xreal := mul a (inv b).

Definition sqrt (a : xreal) : xreal :=
  match a with
  | Fin x => if Rlt_dec x 0 then NaN else Fin (R_sqrt.sqrt x)
  | PInf => PInf
  | NInf | NaN => NaN
  end.

Definition sum (l : list xreal) : xreal := fold_right add (Fin 0) l.

Definition sum_over (n : nat) (f : nat -> xreal) : xreal :=
  sum (map f (seq 0 n)).

(** Arrays of such numbers, with the broadcasting of [Np]. *)
Record xarray : Type := mkarr { shape : list nat; data : list xreal }.

Definition wf (a : xarray) : Prop := length (data a) = Np.size_of (shape a).

Definition zeros (sh : list nat) : xarray :=
  mkarr sh (repeat (Fin 0) (Np.size_of sh)).

Definition of_array (a : Np.ndarray) : xarray :=
  mkarr (Np.shape a) (map Fin (Np.data a)).

Definition map_arr (f : xreal -> xreal) (a : xarray) : xarray :=
  mkarr (shape a) (map f (data a)).

Definition bget (a : xarray) (rs : list nat) (k : nat) : xreal :=
  let pa := Np.pad (shape a) (length rs) in
  nth (Np.ravel pa (Np.clip pa (Np.unravel rs k))) (data a) (Fin 0).

Definition binop (f : xreal -> xreal -> xreal) (a b : xarray) : result xarray :=
  match Np.broadcast_shapes (shape a) (shape b) with
  | None => raise (ValueError "operands could not be broadcast together")
  | Some rs =>
      ok (mkarr rs (map (fun k => f (bget a rs k) (bget b rs k))
                        (seq 0 (Np.size_of rs))))
  end.

(** [acc += c]: the broadcast result must have the shape of [acc]. *)
Definition iadd (acc c : xarray) : result xarray :=
  let? r := binop add acc c in
  if list_eq_dec Nat.eq_dec (shape r) (shape acc) then ok r
  else raise (ValueError "non-broadcastable output operand").

End X.

(** ** The ensemble and its collaborators *)

Section Ensemble.

(** [cellconstructor.Structure.Structure] and [cellconstructor.Phonons.Phonons]. *)
Variable Structure : Type.
Variable Phonons : Type.

(** Attributes read from a dynamical matrix: [dyn.structure.N_atoms],
    [dyn.alat], [dyn.structure.atom], [dyn.structure.masses] and
    [np.shape(dyn.dynmats[0])]. *)
Variable N_atoms : Phonons -> nat.
Variable alat : Phonons -> R.
Variable atom : Phonons -> list string.
Variable masses : Phonons -> list (string * R).
Variable dynmat_shape : Phonons -> list nat.

(** Methods of a dynamical matrix. A two-dimensional array returned by
    [DyagDinQ] is the list of its rows. *)
Variable get_energy_forces : Phonons -> Structure -> result (R * Np.ndarray).
Variable GetRatioProbability :
  Phonons -> Structure -> R -> R -> Phonons -> result R.
Variable DyagDinQ : Phonons -> nat -> result (list R * list (list R)).

(** Methods of a structure: [read_scf] on a fresh structure followed by the
    assignment of the unit cell, and [get_displacements]. *)
Variable read_scf : string -> R -> result Structure.
Variable with_unit_cell : Structure -> Phonons -> Structure.
Variable get_displacements : Structure -> Phonons -> result Np.ndarray.

(** The file system: [os.path.isdir] and [np.loadtxt]. *)
Variable isdir : string -> bool.
Variable loadtxt : string -> result Np.ndarray.

Record Ensemble : Type := mkEnsemble {
  N : nat;
  structures : list Structure;
  energies : pyobj;
  forces : pyobj;
  stresses : pyobj;
  sscha_energies : pyobj;
  sscha_forces : pyobj;
  dyn_0 : Phonons;
  T0 : R;
  rho : pyobj;
  current_dyn : Phonons;
  current_T : R;
  q : pyobj
}.

Definition set_N (v : nat) (s : Ensemble) : Ensemble :=
  mkEnsemble v (structures s) (energies s) (forces s) (stresses s)
    (sscha_energies s) (sscha_forces s) (dyn_0 s) (T0 s) (rho s)
    (current_dyn s) (current_T s) (q s).
Definition set_energies (v : pyobj) (s : Ensemble) : Ensemble :=
  mkEnsemble (N s) (structures s) v (forces s) (stresses s)
    (sscha_energies s) (sscha_forces s) (dyn_0 s) (T0 s) (rho s)
    (current_dyn s) (current_T s) (q s).
Definition set_forces (v : pyobj) (s : Ensemble) : Ensemble :=
  mkEnsemble (N s) (structures s) (energies s) v (stresses s)
    (sscha_energies s) (sscha_forces s) (dyn_0 s) (T0 s) (rho s)
    (current_dyn s) (current_T s) (q s).
Definition set_stresses (v : pyobj) (s : Ensemble) : Ensemble :=
  mkEnsemble (N s) (structures s) (energies s) (forces s) v
    (sscha_energies s) (sscha_forces s) (dyn_0 s) (T0 s) (rho s)
    (current_dyn s) (current_T s) (q s).
Definition set_sscha_energies (v : pyobj) (s : Ensemble) : Ensemble :=
  mkEnsemble (N s) (structures s) (energies s) (forces s) (stresses s)
    v (sscha_forces s) (dyn_0 s) (T0 s) (rho s)
    (current_dyn s) (current_T s) (q s).
Definition set_sscha_forces (v : pyobj) (s : Ensemble) : Ensemble :=
  mkEnsemble (N s) (structures s) (energies s) (forces s) (stresses s)
    (sscha_energies s) v (dyn_0 s) (T0 s) (rho s)
    (current_dyn s) (current_T s) (q s).
Definition set_rho (v : pyobj) (s : Ensemble) : Ensemble :=
  mkEnsemble (N s) (structures s) (energies s) (forces s) (stresses s)
    (sscha_energies s) (sscha_forces s) (dyn_0 s) (T0 s) v
    (current_dyn s) (current_T s) (q s).
Definition set_current_dyn (v : Phonons) (s : Ensemble) : Ensemble :=
  mkEnsemble (N s) (structures s) (energies s) (forces s) (stresses s)
    (sscha_energies s) (sscha_forces s) (dyn_0 s) (T0 s) (rho s)
    v (current_T s) (q s).
Definition set_current_T (v : R) (s : Ensemble) : Ensemble :=
  mkEnsemble (N s) (structures s) (energies s) (forces s) (stresses s)
    (sscha_energies s) (sscha_forces s) (dyn_0 s) (T0 s) (rho s)
    (current_dyn s) v (q s).

(** A method body: it runs on the object's state and leaves a state behind,
    with either a value or the exception that stopped it. *)
Definition M (A : Type) : Type := Ensemble -> result A * Ensemble.

Definition ret {A : Type} (x : A) : M A := fun s => (ok x, s).
Definition bind {A B : Type} (c : M A) (k : A -> M B) : M B :=
  fun s => match c s with
           | (inl e, s') => (inl e, s')
           | (inr x, s') => k x s'
           end.
Definition lift {A : Type} (r : result A) : M A := fun s => (r, s).
Definition gets {A : Type} (f : Ensemble -> A) : M A := fun s => (ok (f s), s).
Definition modify (f : Ensemble -> Ensemble) : M unit := fun s => (ok tt, f s).

Notation "x <- c ;; k" := (bind c (fun x => k))
  (at level 61, c at next level, right associativity).
Notation "c ;; k" := (bind c (fun _ => k))
  (at level 61, right associativity).

(** [for i in range(n): body i]. *)
Fixpoint for_each (l : list nat) (body : nat -> M unit) : M unit :=
  match l with
  | [] => ret tt
  | i :: l' => body i ;; for_each l' body
  end.
Definition for_range (n : nat) (body : nat -> M unit) : M unit :=
  for_each (seq 0 n) body.

(** *** [Ensemble.__init__] *)
Definition init (dyn0 : Phonons) (T0' : R) : Ensemble :=
  {| N := 0;
     structures := [];
     energies := PyList [];
     forces := PyList [];
     stresses := PyList [];
     sscha_energies := PyList [];
     sscha_forces := PyList [];
     dyn_0 := dyn0;
     T0 := T0';
     rho := PyList [];
     current_dyn := dyn0;
     current_T := T0';
     q := PyList [] |}.

(** [self.structures[i]]. *)
Definition structure_at (i : nat) : M Structure :=
  fun s => match nth_error (structures s) i with
           | Some st => (ok st, s)
           | None => (raise (IndexError "self.structures[i]: list index out of range"), s)
           end.

(** *** [Ensemble.update_weights] *)
Definition update_weights_body (new_dynamical_matrix : Phonons) (newT : R)
    (i : nat) : M unit :=
  st <- structure_at i ;;
  t0 <- gets T0 ;;
  d0 <- gets dyn_0 ;;
  r <- lift (GetRatioProbability new_dynamical_matrix st newT t0 d0) ;;
  rho0 <- gets rho ;;
  rho1 <- lift (py_setitem "self.rho[i]: index out of range" rho0 i r) ;;
  modify (set_rho rho1) ;;
  st' <- structure_at i ;;
  ef <- lift (get_energy_forces new_dynamical_matrix st') ;;
  e0 <- gets sscha_energies ;;
  e1 <- lift (py_setitem "self.sscha_energies[i]: index out of range" e0 i (fst ef)) ;;
  modify (set_sscha_energies e1) ;;
  f0 <- gets sscha_forces ;;
  f1 <- lift (py_setitem3 f0 i (snd ef)) ;;
  modify (set_sscha_forces f1) ;;
  q0 <- gets q ;;
  lift (py_touch "self.q[i]: list index out of range" q0 i).

Definition update_weights (new_dynamical_matrix : Phonons) (newT : R) : M unit :=
  modify (set_current_T newT) ;;
  n <- gets N ;;
  for_range n (update_weights_body new_dynamical_matrix newT) ;;
  modify (set_current_dyn new_dynamical_matrix).

(** *** [Ensemble.get_effective_sample_size] *)
Definition get_effective_sample_size (s : Ensemble) : result R :=
  let? sq := py_square (rho s) in
  ok (INR (N s) * py_sum (rho s) / py_sum sq)%R.

(** *** [Ensemble.get_average_energy] *)
Definition get_average_energy (subtract_sscha : bool) (s : Ensemble) : result R :=
  if subtract_sscha then
    let? d := py_sub (energies s) (sscha_energies s) in
    let? p := py_mul (rho s) d in
    ok (py_sum p / INR (N s))%R
  else
    let? p := py_mul (rho s) (energies s) in
    ok (py_sum p / INR (N s))%R.

(** *** [Ensemble.get_average_forces]
    [np.sum] without an axis adds every entry, so the value is a number. *)
Definition get_average_forces (s : Ensemble) : result R :=
  let new_rho := Np.tile (asarray (rho s)) [N_atoms (dyn_0 s); 3; 1] in
  let? d := py_sub (forces s) (sscha_forces s) in
  let? p := Np.mul new_rho (asarray d) in
  ok (Np.sum p / INR (N s))%R.

(** *** [Ensemble.load] *)

(** ["%d" % n] for an integer. *)
Definition fmt_int (z : Z) : string := NilZero.string_of_int (Z.to_int z).

(** The last character of a string and the string without it:
    [data_dir[-1]] and [data_dir[:-1]]. *)
Fixpoint last_char (s : string) : option ascii :=
  match s with
  | EmptyString => None
  | String c EmptyString => Some c
  | String _ s' => last_char s'
  end.

Fixpoint drop_last (s : string) : string :=
  match s with
  | EmptyString => EmptyString
  | String _ EmptyString => EmptyString
  | String c s' => String c (drop_last s')
  end.

Definition strip_slash (data_dir : string) : result string :=
  match last_char data_dir with
  | None => raise (IndexError "string index out of range")
  | Some c => if Ascii.eqb c "/"%char then ok (drop_last data_dir) else ok data_dir
  end.

Definition per_config_path (data_dir kind : string) (population : Z) (i : nat) : string :=
  (data_dir ++ "/" ++ kind ++ "_population" ++ fmt_int population ++ "_"
     ++ fmt_int (Z.of_nat (i + 1)) ++ ".dat")%string.

Definition energies_path (data_dir : string) (population : Z) : string :=
  (data_dir ++ "/energies_supercell_population" ++ fmt_int population ++ ".dat")%string.

Definition A_TO_BOHR : R := (1889725989 / 1000000000)%R.

Definition load_body (data_dir : string) (population : Z) (i : nat) : M unit :=
  d0 <- gets dyn_0 ;;
  st <- lift (read_scf (per_config_path data_dir "scf" population i) (alat d0)) ;;
  let structure := with_unit_cell st d0 in
  f <- lift (loadtxt (per_config_path data_dir "forces" population i)) ;;
  f0 <- gets forces ;;
  f1 <- lift (py_setitem3 f0 i (Np.map_arr (fun x => (x * A_TO_BOHR)%R) f)) ;;
  modify (set_forces f1) ;;
  p <- lift (loadtxt (per_config_path data_dir "pressures" population i)) ;;
  p0 <- gets stresses ;;
  p1 <- lift (py_setitem3 p0 i p) ;;
  modify (set_stresses p1) ;;
  ef <- lift (get_energy_forces d0 structure) ;;
  e0 <- gets sscha_energies ;;
  e1 <- lift (py_setitem "self.sscha_energies[i]: index out of range" e0 i (fst ef)) ;;
  modify (set_sscha_energies e1) ;;
  g0 <- gets sscha_forces ;;
  g1 <- lift (py_setitem3 g0 i (snd ef)) ;;
  modify (set_sscha_forces g1).

Definition load (data_dir : string) (population : Z) (n : nat) : M unit :=
  if negb (isdir data_dir)
  then lift (raise (IOError "Error, the given data_dir is not a valid directory."))
  else
    dir <- lift (strip_slash data_dir) ;;
    modify (set_N n) ;;
    d0 <- gets dyn_0 ;;
    modify (set_forces (NdArray (Np.zeros [n; N_atoms d0; 3]))) ;;
    modify (set_stresses (NdArray (Np.zeros [n; 3; 3]))) ;;
    modify (set_sscha_energies (NdArray (Np.zeros [n]))) ;;
    modify (set_sscha_energies (NdArray (Np.zeros [n; N_atoms d0; 3]))) ;;
    for_range n (load_body dir population) ;;
    e <- lift (loadtxt (energies_path dir population)) ;;
    modify (set_energies (NdArray e)) ;;
    modify (set_rho (NdArray (Np.ones [n]))).

(** *** [Ensemble.get_free_energy_gradient_respect_to_dyn] *)

Local Open Scope R_scope.

Definition K_to_Ry : R := 6336857346553283 / 1000000000000000000000.

(** [a_mu] and [da_dw] for one frequency. The hyperbolic functions, sums
    and products are taken in the reals; the divisions and square roots are
    the ones that can leave them. *)
Definition a_mu (T w : R) : xreal :=
  if Req_dec_T T 0 then X.div (Fin 1) (X.sqrt (Fin (2 * w)))
  else
    let beta := 1 / (K_to_Ry * T) in
    X.div (Fin 1) (X.sqrt (Fin (tanh (beta * w / 2) * 2 * w))).

Definition da_dw (T w : R) : xreal :=
  if Req_dec_T T 0 then X.div (Fin (-1)) (X.sqrt (Fin (8 * w ^ 3)))
  else
    let beta := 1 / (K_to_Ry * T) in
    X.div (Fin (- (w * beta + sinh (w * beta))))
      (X.mul (Fin (2 * sqrt 2 * w ^ 2 * (cosh (beta * w) - 1)))
         (X.sqrt (X.div (Fin (cosh (beta * w / 2)))
                        (Fin (sinh (beta * w / 2) * w))))).

(** Entries of a vector and of a matrix given by its rows. *)
Definition vat (v : list R) (i : nat) : R := nth i v 0.
Definition mat (m : list (list R)) (a i : nat) : R := nth i (nth a m []) 0.

(** [x[lo:hi] = v] on a one-dimensional array: the slice is clipped. *)
Definition set_slice (l : list R) (lo hi : nat) (v : R) : list R :=
  map (fun k => if ((lo <=? k) && (k <? hi))%nat then v else vat l k)
      (seq 0 (length l)).

(** [masses[atom[i]]]. *)
Fixpoint dict_get (d : list (string * R)) (k : string) : result R :=
  match d with
  | [] => raise (KeyError k)
  | (k', v) :: d' => if String.eqb k' k then ok v else dict_get d' k
  end.

Definition mass_of (dyn : Phonons) (i : nat) : result R :=
  match nth_error (atom dyn) i with
  | None => raise (IndexError "structure.atom[i]: list index out of range")
  | Some name => dict_get (masses dyn) name
  end.

(** The mass vector [_m_]. *)
Fixpoint fill_masses (dyn : Phonons) (l : list nat) (m : list R) : result (list R) :=
  match l with
  | [] => ok m
  | i :: l' =>
      let? x := mass_of dyn i in
      fill_masses dyn l' (set_slice m (3 * i) (3 * i + 3) x)
  end.

Definition mass_vector (s : Ensemble) : result (list R) :=
  fill_masses (current_dyn s) (seq 0 (N_atoms (current_dyn s)))
    (repeat 0 (N_atoms (dyn_0 s) * 3)).

(** [w = w[3:]] and [pols = pols[:, 3:]]. *)
Definition remove_translations (wp : list R * list (list R))
  : list R * list (list R) :=
  (skipn 3 (fst wp), map (skipn 3) (snd wp)).

Section Tensors.

(** The arrays shared by every configuration: the mass vector, the retained
    frequencies and polarization vectors, and the temperature. *)
Variable _m_ : list R.
Variable w : list R.
Variable pols : list (list R).
Variable T : R.

Definition n_modes : nat := length w.
Definition n_coord : nat := length _m_.

Definition _m_sqrtinv (a : nat) : xreal :=
  X.div (Fin 1) (X.sqrt (Fin (vat _m_ a))).

(** [one_over_omegamunu[j, i]]: [1 / (w_i^2 - w_j^2)] multiplied by the entry
    of [1 - np.eye(n_modes)]. On the diagonal this is [inf * 0]. *)
Definition one_over_omegamunu (j i : nat) : xreal :=
  X.mul (X.div (Fin 1) (Fin (vat w i ^ 2 - vat w j ^ 2)))
        (Fin (1 - (if Nat.eqb j i then 1 else 0))).

(** [einsum("i, ai, bi, ci, a, b, c->abic", ...)]. *)
Definition d_lna_d_dyn (a b i c : nat) : xreal :=
  X.mul (X.mul (X.mul
    (X.mul (X.div (da_dw T (vat w i))
                  (X.mul (Fin (2 * vat w i)) (a_mu T (vat w i))))
           (Fin (mat pols a i * mat pols b i * mat pols c i)))
    (_m_sqrtinv a)) (_m_sqrtinv b)) (_m_sqrtinv c).

(** [einsum("ai,bj,ci,ji,a,b,c->abjc", ...)]: [i] is summed. *)
Definition d_pol_d_dyn (a b j c : nat) : xreal :=
  X.sum_over n_modes (fun i =>
    X.mul (X.mul (X.mul
      (X.mul (Fin (mat pols a i * mat pols b j * mat pols c i))
             (one_over_omegamunu j i))
      (_m_sqrtinv a)) (_m_sqrtinv b)) (_m_sqrtinv c)).

Definition pre_sum (a b j c : nat) : xreal :=
  X.add (d_lna_d_dyn a b j c) (d_pol_d_dyn a b j c).

(** [einsum("i, ij, i", sqrt(_m_), pols, u_disp)]: [i] is summed. *)
Definition q_vector (u_disp : list R) (j : nat) : xreal :=
  X.sum_over n_coord (fun i =>
    X.mul (X.sqrt (Fin (vat _m_ i))) (Fin (mat pols i j * vat u_disp i))).

(** [einsum("abcd, d", pre_sum, delta_f)]: [d] is summed. *)
Definition gamma (delta_f : list R) (a b c : nat) : xreal :=
  X.sum_over n_coord (fun d => X.mul (pre_sum a b c d) (Fin (vat delta_f d))).

(** [einsum("abc, c", gamma, q)]: the array of shape [(n_coord, n_coord)]. *)
Definition gamma_q (delta_f u_disp : list R) : X.xarray :=
  X.mkarr [n_coord; n_coord]
    (map (fun k =>
            X.sum_over n_modes (fun c =>
              X.mul (gamma delta_f (k / n_coord) (k mod n_coord) c)
                    (q_vector u_disp c)))
         (seq 0 (n_coord * n_coord))).

(** einsum checks that an index has one length in every operand. *)
Definition pols_shape_ok : bool :=
  (length pols =? n_coord)%nat
  && forallb (fun row => (length row =? n_modes)%nat) pols.

End Tensors.

(** The contribution [einsum("abc, c", gamma, q)] of configuration [i]. *)
Definition config_term (_m_ w : list R) (pols : list (list R)) (s : Ensemble)
    (i : nat) : result X.xarray :=
  match nth_error (structures s) i with
  | None => raise (IndexError "self.structures[i]: list index out of range")
  | Some st =>
      let? u := get_displacements st (current_dyn s) in
      let? u_disp := Np.reshape1 u (3 * N_atoms (current_dyn s)) in
      let? f := py_getitem3 (forces s) i in
      let? g := py_getitem3 (sscha_forces s) i in
      let? d := Np.sub f g in
      let? delta_f := Np.reshape1 d (3 * N_atoms (current_dyn s)) in
      if ((length u_disp =? n_coord _m_) && (length delta_f =? n_coord _m_))%nat
      then ok (gamma_q _m_ w pols (current_T s) delta_f u_disp)
      else raise (ValueError "einsum: operands could not be broadcast together")
  end.

(** The loop over the configurations, accumulating into [d_F_d_dyn]. *)
Fixpoint accumulate (_m_ w : list R) (pols : list (list R)) (s : Ensemble)
    (l : list nat) (d_F_d_dyn : X.xarray) : result X.xarray :=
  match l with
  | [] => ok d_F_d_dyn
  | i :: l' =>
      let? g := config_term _m_ w pols s i in
      let? r := py_getitem "self.rho[i]: list index out of range" (rho s) i in
      let? c := X.binop X.mul (X.map_arr X.neg g) (X.of_array r) in
      let? acc := X.iadd d_F_d_dyn c in
      accumulate _m_ w pols s l' acc
  end.

(** The computation that follows [w, pols = self.current_dyn.DyagDinQ(0)]. *)
Definition gradient_from (_m_ : list R) (wp : list R * list (list R))
    (s : Ensemble) : result X.xarray :=
  let w := fst (remove_translations wp) in
  let pols := snd (remove_translations wp) in
  if pols_shape_ok _m_ w pols then
    let? acc := accumulate _m_ w pols s (seq 0 (N s))
                  (X.zeros (dynmat_shape (current_dyn s))) in
    ok (X.map_arr (fun x => X.div x (Fin (py_sum (rho s)))) acc)
  else raise (ValueError "einsum: operands could not be broadcast together").

Definition get_free_energy_gradient_respect_to_dyn (s : Ensemble)
  : result X.xarray :=
  let? _m_ := mass_vector s in
  let? wp := DyagDinQ (current_dyn s) 0 in
  gradient_from _m_ wp s.

End Ensemble.

Arguments mkEnsemble {Structure Phonons}.
Arguments N {Structure Phonons}.
Arguments structures {Structure Phonons}.
Arguments energies {Structure Phonons}.
Arguments forces {Structure Phonons}.
Arguments stresses {Structure Phonons}.
Arguments sscha_energies {Structure Phonons}.
Arguments sscha_forces {Structure Phonons}.
Arguments dyn_0 {Structure Phonons}.
Arguments T0 {Structure Phonons}.
Arguments rho {Structure Phonons}.
Arguments current_dyn {Structure Phonons}.
Arguments current_T {Structure Phonons}.
Arguments q {Structure Phonons}.
Arguments set_rho {Structure Phonons}.
Arguments set_current_T {Structure Phonons}.
Arguments set_current_dyn {Structure Phonons}.
Arguments set_sscha_energies {Structure Phonons}.
Arguments set_sscha_forces {Structure Phonons}.
Arguments init {Structure Phonons}.
Arguments get_effective_sample_size {Structure Phonons}.
Arguments get_average_energy {Structure Phonons}.
Arguments get_average_forces {Structure Phonons}.
Arguments update_weights {Structure Phonons}.
Arguments load {Structure Phonons}.
Arguments get_free_energy_gradient_respect_to_dyn {Structure Phonons}.
Arguments gradient_from {Structure Phonons}.
Arguments config_term {Structure Phonons}.
Arguments accumulate {Structure Phonons}.
Arguments mass_vector {Structure Phonons}.
Arguments load_body {Structure Phonons}.
Arguments for_each {Structure Phonons}.
Arguments for_range {Structure Phonons}.
Arguments bind {Structure Phonons A B}.
Arguments lift {Structure Phonons A}.
Arguments gets {Structure Phonons A}.
Arguments modify {Structure Phonons}.
Arguments ret {Structure Phonons A}.
Arguments set_N {Structure Phonons}.
Arguments set_energies {Structure Phonons}.
Arguments set_forces {Structure Phonons}.
Arguments set_stresses {Structure Phonons}.
Arguments update_weights_body {Structure Phonons}.
Arguments structure_at {Structure Phonons}.

(** ** The data invariant of a loaded ensemble

    Section 3 of the specification: every per-configuration array has exactly
    [N] entries; weights and energies are one-dimensional, forces have shape
    [(N, N_atoms, 3)] and stresses [(N, 3, 3)]. *)

Definition is_array (v : pyobj) (sh : list nat) : Prop :=
  exists d, v = NdArray (Np.mkarr sh d) /\ length d = Np.size_of sh.

Section Loaded.

Context {Structure Phonons : Type}.
Variable N_atoms : Phonons -> nat.

Record loaded (s : Ensemble Structure Phonons) : Prop := {
  loaded_structures : length (structures s) = N s;
  loaded_energies : is_array (energies s) [N s];
  loaded_forces : is_array (forces s) [N s; N_atoms (dyn_0 s); 3];
  loaded_stresses : is_array (stresses s) [N s; 3; 3];
  loaded_sscha_energies : is_array (sscha_energies s) [N s];
  loaded_sscha_forces : is_array (sscha_forces s) [N s; N_atoms (dyn_0 s); 3];
  loaded_rho : is_array (rho s) [N s]
}.

(** Entry [i] of the weights, of the energies and of the model energies. *)
Definition weight (s : Ensemble Structure Phonons) (i : nat) : R :=
  nth i (Np.data (asarray (rho s))) 0%R.
Definition energy (s : Ensemble Structure Phonons) (i : nat) : R :=
  nth i (Np.data (asarray (energies s))) 0%R.
Definition model_energy (s : Ensemble Structure Phonons) (i : nat) : R :=
  nth i (Np.data (asarray (sscha_energies s))) 0%R.

(** Entry [(i, a, c)] of the forces and of the model forces. *)
Definition force (s : Ensemble Structure Phonons) (i a c : nat) : R :=
  nth ((i * N_atoms (dyn_0 s) + a) * 3 + c) (Np.data (asarray (forces s))) 0%R.
Definition model_force (s : Ensemble Structure Phonons) (i a c : nat) : R :=
  nth ((i * N_atoms (dyn_0 s) + a) * 3 + c)
      (Np.data (asarray (sscha_forces s))) 0%R.

End Loaded.

(** ** A small concrete ensemble

    Structures and dynamical matrices are numbered; every cell holds one
    atom. The ensemble has two configurations. *)

Module Example.

Local Open Scope R_scope.

Definition N_atoms (dyn : nat) : nat := 1.

Definition two_configurations : Ensemble nat nat :=
  {| N := 2;
     structures := [0%nat; 1%nat];
     energies := NdArray (Np.mkarr [2%nat] [3; 5]);
     forces := NdArray (Np.mkarr [2%nat; 1%nat; 3%nat] [1; 2; 3; 4; 5; 6]);
     stresses := NdArray (Np.zeros [2%nat; 3%nat; 3%nat]);
     sscha_energies := NdArray (Np.mkarr [2%nat] [1; 2]);
     sscha_forces := NdArray (Np.mkarr [2%nat; 1%nat; 3%nat] [1; 1; 1; 2; 2; 2]);
     dyn_0 := 0%nat;
     T0 := 0;
     rho := NdArray (Np.mkarr [2%nat] [1; 1]);
     current_dyn := 0%nat;
     current_T := 0;
     q := PyList [] |}.

(** Collaborators that never raise: every file holds three zeros, every
    structure is read as number 0, the model predicts energy 0 and zero
    forces, the probability ratio is 1, and every path is a directory. *)
Definition read_scf (path : string) (alat : R) : result nat := ok 0%nat.
Definition with_unit_cell (st dyn : nat) : nat := st.
Definition alat (dyn : nat) : R := 1.
Definition isdir (path : string) : bool := true.
Definition loadtxt (path : string) : result Np.ndarray :=
  ok (Np.mkarr [3%nat] [0; 0; 0]).
Definition get_energy_forces (dyn st : nat) : result (R * Np.ndarray) :=
  ok (0, Np.mkarr [1%nat; 3%nat] [0; 0; 0]).
Definition GetRatioProbability (dyn st : nat) (T T0 : R) (dyn0 : nat) : result R :=
  ok 1.

(** A model whose energy and force prediction raises, and a probability
    ratio equal to 2. *)
Definition raising_energy_forces (dyn st : nat) : result (R * Np.ndarray) :=
  raise (External 7).
Definition ratio_two (dyn st : nat) (T T0 : R) (dyn0 : nat) : result R := ok 2.

(** One configuration of one atom, with weight 2. *)
Definition one_configuration : Ensemble nat nat :=
  {| N := 1;
     structures := [0%nat];
     energies := NdArray (Np.mkarr [1%nat] [3]);
     forces := NdArray (Np.mkarr [1%nat; 1%nat; 3%nat] [1; 2; 3]);
     stresses := NdArray (Np.zeros [1%nat; 3%nat; 3%nat]);
     sscha_energies := NdArray (Np.mkarr [1%nat] [1]);
     sscha_forces := NdArray (Np.mkarr [1%nat; 1%nat; 3%nat] [0; 0; 0]);
     dyn_0 := 0%nat;
     T0 := 0;
     rho := NdArray (Np.mkarr [1%nat] [2]);
     current_dyn := 0%nat;
     current_T := 0;
     q := PyList [] |}.

(** A model that raises for every structure but the first, and the
    two-configuration ensemble with a [q] of two entries written by hand. *)
Definition raising_on_second (dyn st : nat) : result (R * Np.ndarray) :=
  match st with
  | O => ok (0, Np.mkarr [1%nat; 3%nat] [0; 0; 0])
  | S _ => raise (External 7)
  end.

Definition with_q_cache : Ensemble nat nat :=
  mkEnsemble (N two_configurations) (structures two_configurations)
    (energies two_configurations) (forces two_configurations)
    (stresses two_configurations) (sscha_energies two_configurations)
    (sscha_forces two_configurations) (dyn_0 two_configurations)
    (T0 two_configurations) (rho two_configurations)
    (current_dyn two_configurations) (current_T two_configurations)
    (PyList [0; 0]).

(** The ensemble as the constructor leaves it. *)
Definition fresh : Ensemble nat nat := init 0%nat 0.

(** The same ensemble with every weight equal to one half. *)
Definition half_weights : Ensemble nat nat :=
  set_rho (NdArray (Np.mkarr [2%nat] [1 / 2; 1 / 2])) two_configurations.

End Example.

(** ** Weight vectors *)

Section Weights.

Context {Structure Phonons : Type}.
Implicit Types s : Ensemble Structure Phonons.

(** Every weight is non-negative and one of them is not zero. *)
Definition valid_weights s : Prop :=
  (forall i, i < N s -> (0 <= weight s i)%R)
  /\ (exists i, i < N s /\ weight s i <> 0%R).

Definition all_weights_equal s : Prop :=
  forall i j, i < N s -> j < N s -> weight s i = weight s j.

(** The sum of the weights and of their squares. *)
Definition sum_weights s : R := Rsum_over (N s) (weight s).
Definition sum_square_weights s : R :=
  Rsum_over (N s) (fun i => (weight s i * weight s i)%R).

End Weights.

(** ** The amplitude factor as the specification words it

    The hyperbolic cotangent, and the finite-temperature amplitude of
    section 4.4 step 3, [1 / sqrt (2 w coth (w / (2 k_B T)))]. *)

Definition coth (x : R) : R := (cosh x / sinh x)%R.

Definition claimed_amplitude (T w : R) : R :=
  (1 / sqrt (2 * w * coth (w / (2 * (K_to_Ry * T)))))%R.

(** ** Readability of the first configuration

    The files of configuration 1 are read without error, with shapes that fit
    the force and stress blocks, and the model returns its prediction. *)

Section Readable.

Context {Structure Phonons : Type}.
Variable N_atoms : Phonons -> nat.
Variable alat : Phonons -> R.
Variable get_energy_forces : Phonons -> Structure -> result (R * Np.ndarray).
Variable read_scf : string -> R -> result Structure.
Variable with_unit_cell : Structure -> Phonons -> Structure.
Variable loadtxt : string -> result Np.ndarray.

Definition first_configuration_readable (dyn0 : Phonons) (dir : string)
    (population : Z) : Prop :=
  exists st f p ef,
    read_scf (per_config_path dir "scf" population 0) (alat dyn0) = ok st
    /\ loadtxt (per_config_path dir "forces" population 0) = ok f
    /\ Np.broadcast_to (Np.map_arr (fun x => (x * A_TO_BOHR)%R) f)
         [N_atoms dyn0; 3] <> None
    /\ loadtxt (per_config_path dir "pressures" population 0) = ok p
    /\ Np.broadcast_to p [3; 3] <> None
    /\ get_energy_forces dyn0 (with_unit_cell st dyn0) = ok ef.

End Readable.

(** ** Comparing the state before and after a reweighting *)

Section Frames.

Context {Structure Phonons : Type}.
Variable N_atoms : Phonons -> nat.
Implicit Types s : Ensemble Structure Phonons.

(** The fields that reweighting never assigns. *)
Record same_ground_truth s s' : Prop := {
  same_N : N s' = N s;
  same_structures : structures s' = structures s;
  same_energies : energies s' = energies s;
  same_forces : forces s' = forces s;
  same_stresses : stresses s' = stresses s;
  same_dyn_0 : dyn_0 s' = dyn_0 s;
  same_T0 : T0 s' = T0 s;
  same_q : q s' = q s
}.

(** The arrays that reweighting assigns into have the shapes of section 3. *)
Record reweightable s : Prop := {
  reweightable_structures : length (structures s) = N s;
  reweightable_rho : is_array (rho s) [N s];
  reweightable_sscha_energies : is_array (sscha_energies s) [N s];
  reweightable_sscha_forces :
    is_array (sscha_forces s) [N s; N_atoms (dyn_0 s); 3]
}.

(** Configuration [i] has in [s'] the weight and the model predictions it
    has in [s]. *)
Definition configuration_kept s s' (i : nat) : Prop :=
  weight s' i = weight s i
  /\ model_energy s' i = model_energy s i
  /\ forall a c, a < N_atoms (dyn_0 s) -> c < 3 ->
       model_force N_atoms s' i a c = model_force N_atoms s i a c.

(** The exception raised by the expression statement [self.q[i]]. *)
Definition q_index_error : exn :=
  IndexError "self.q[i]: list index out of range".

(** The exception raised by a tuple index into a Python list. *)
Definition tuple_index_error : exn :=
  TypeError "list indices must be integers or slices, not tuple".

(** The exception raised by [self.structures[i]]. *)
Definition structures_index_error : exn :=
  IndexError "self.structures[i]: list index out of range".

End Frames.

(** ** The average force as the specification words it

    Entry [(a, c)] of the weighted average of the residual forces, divided by
    [N] (section 4.3). *)

Definition average_force_entry {Structure Phonons : Type}
    (N_atoms : Phonons -> nat) (s : Ensemble Structure Phonons) (a c : nat) : R :=
  (Rsum_over (N s)
     (fun i => weight s i * (force N_atoms s i a c - model_force N_atoms s i a c))
   / INR (N s))%R.

(** ** Rescaling the weights

    Every weight [rho_i] replaced by [lambda * rho_i]. *)

Definition py_scale (lambda : R) (v : pyobj) : pyobj :=
  match v with
  | PyList l => PyList (map (fun x => (lambda * x)%R) l)
  | NdArray a => NdArray (Np.map_arr (fun x => (lambda * x)%R) a)
  end.

Definition scale_weights {Structure Phonons : Type} (lambda : R)
    (s : Ensemble Structure Phonons) : Ensemble Structure Phonons :=
  set_rho (py_scale lambda (rho s)) s.

(** The image of an outcome under a function on values. *)
Definition rmap {A B : Type} (f : A -> B) (r : result A) : result B :=
  match r with
  | inl e => inl e
  | inr x => inr (f x)
  end.

(** A two-atom model at the single sampled point: six Cartesian coordinates,
    three translational modes and three retained modes of frequencies 1, 2
    and 3, the polarization vectors being the coordinate axes. *)
Module Diatomic.

Local Open Scope R_scope.

Definition N_atoms (dyn : nat) : nat := 2.
Definition atom (dyn : nat) : list string := ["H"%string; "H"%string].
Definition masses (dyn : nat) : list (string * R) := [("H"%string, 1)].
Definition dynmat_shape (dyn : nat) : list nat := [6%nat; 6%nat].

Definition frequencies : list R := [0; 0; 0; 1; 2; 3].
Definition polarizations : list (list R) :=
  [[1; 0; 0; 0; 0; 0];
   [0; 1; 0; 0; 0; 0];
   [0; 0; 1; 0; 0; 0];
   [0; 0; 0; 1; 0; 0];
   [0; 0; 0; 0; 1; 0];
   [0; 0; 0; 0; 0; 1]].

Definition DyagDinQ (dyn iq : nat) : result (list R * list (list R)) :=
  ok (frequencies, polarizations).

Definition get_displacements (st dyn : nat) : result Np.ndarray :=
  ok (Np.mkarr [2%nat; 3%nat] [1; 0; 0; 0; 1; 0]).

Definition one_configuration : Ensemble nat nat :=
  {| N := 1;
     structures := [0%nat];
     energies := NdArray (Np.mkarr [1%nat] [3]);
     forces := NdArray (Np.mkarr [1%nat; 2%nat; 3%nat] [1; 2; 3; 4; 5; 6]);
     stresses := NdArray (Np.zeros [1%nat; 3%nat; 3%nat]);
     sscha_energies := NdArray (Np.mkarr [1%nat] [1]);
     sscha_forces := NdArray (Np.mkarr [1%nat; 2%nat; 3%nat] [0; 0; 0; 0; 0; 0]);
     dyn_0 := 0%nat;
     T0 := 0;
     rho := NdArray (Np.mkarr [1%nat] [2]);
     current_dyn := 0%nat;
     current_T := 0;
     q := PyList [] |}.

(** The same model with other values in the three translational modes. *)
Definition frequencies' : list R := [7; 8; 9; 1; 2; 3].
Definition polarizations' : list (list R) :=
  [[5; 5; 5; 0; 0; 0];
   [5; 5; 5; 0; 0; 0];
   [5; 5; 5; 0; 0; 0];
   [5; 5; 5; 1; 0; 0];
   [5; 5; 5; 0; 1; 0];
   [5; 5; 5; 0; 0; 1]].
Definition DyagDinQ' (dyn iq : nat) : result (list R * list (list R)) :=
  ok (frequencies', polarizations').

End Diatomic.

(** A one-atom model: three Cartesian coordinates and the three translational
    modes only. *)
Module Monatomic.

Local Open Scope R_scope.

Definition N_atoms (dyn : nat) : nat := 1.
Definition atom (dyn : nat) : list string := ["H"%string].
Definition masses (dyn : nat) : list (string * R) := [("H"%string, 1)].
Definition dynmat_shape (dyn : nat) : list nat := [3%nat; 3%nat].

Definition DyagDinQ (dyn iq : nat) : result (list R * list (list R)) :=
  ok ([0; 0; 0], [[1; 0; 0]; [0; 1; 0]; [0; 0; 1]]).

(** The same modes with other values. *)
Definition DyagDinQ' (dyn iq : nat) : result (list R * list (list R)) :=
  ok ([7; 8; 9], [[5; 5; 5]; [5; 5; 5]; [5; 5; 5]]).

Definition get_displacements (st dyn : nat) : result Np.ndarray :=
  ok (Np.mkarr [1%nat; 3%nat] [1; 0; 0]).

End Monatomic.

(** ** Invariants of the reweighting loop *)

Section ReweightingInvariants.

Context {Structure Phonons : Type}.
Variable N_atoms : Phonons -> nat.
Variable get_energy_forces : Phonons -> Structure -> result (R * Np.ndarray).
Variable GetRatioProbability :
  Phonons -> Structure -> R -> R -> Phonons -> result R.
Implicit Types s : Ensemble Structure Phonons.

(** What one pass of the loop may change: the weight and the model
    predictions of configuration [i], and nothing else. *)
Record touches_only (i : nat) s s' : Prop := {
  touch_ground : same_ground_truth s s';
  touch_T : current_T s' = current_T s;
  touch_dyn : current_dyn s' = current_dyn s;
  touch_shapes : reweightable N_atoms s';
  touch_others : forall j, j <> i -> configuration_kept N_atoms s s' j
}.

(** Configuration [i] carries in [s] the ratio and the model energy that the
    new dynamical matrix gives for it. *)
Definition reweighted_at (newdyn : Phonons) (newT : R) s0 s (i : nat) : Prop :=
  exists st ef,
    nth_error (structures s0) i = Some st
    /\ GetRatioProbability newdyn st newT (T0 s0) (dyn_0 s0) = ok (weight s i)
    /\ get_energy_forces newdyn st = ok ef
    /\ model_energy s i = fst ef.

(** The state after the passes for the configurations below [k]. *)
Record passes_done (newdyn : Phonons) (newT : R) (k : nat) s0 s : Prop := {
  done_ground : same_ground_truth s0 s;
  done_T : current_T s = current_T s0;
  done_dyn : current_dyn s = current_dyn s0;
  done_shapes : reweightable N_atoms s;
  done_below : forall i, i < k -> reweighted_at newdyn newT s0 s i;
  done_above : forall i, k <= i -> configuration_kept N_atoms s0 s i
}.

(** Pass [i] of the loop runs to its end on the data of [s]: the adapter
    returns a ratio and a prediction for configuration [i], the predicted
    forces can be assigned to a block of [N_atoms] rows of three, and
    [self.q[i]] exists. *)
Definition pass_completes (newdyn : Phonons) (newT : R) s (i : nat) : Prop :=
  exists st r ef xs,
    nth_error (structures s) i = Some st
    /\ GetRatioProbability newdyn st newT (T0 s) (dyn_0 s) = ok r
    /\ get_energy_forces newdyn st = ok ef
    /\ Np.broadcast_to (snd ef) [N_atoms (dyn_0 s); 3] = Some xs
    /\ py_touch "self.q[i]: list index out of range" (q s) i = ok tt.

End ReweightingInvariants.

(** * Properties *)

(** ** Sums *)

Local Open Scope R_scope.

Lemma Rsum_app (l1 l2 : list R) : Rsum (l1 ++ l2) = Rsum l1 + Rsum l2.
Proof.
  induction l1 as [|x l1 IH]; simpl.
  - lra.
  - rewrite IH. lra.
Qed.

Lemma Rsum_map_plus {A : Type} (f g : A -> R) (l : list A) :
  Rsum (map (fun x => f x + g x) l) = Rsum (map f l) + Rsum (map g l).
Proof.
  induction l as [|x l IH]; simpl.
  - lra.
  - rewrite IH. lra.
Qed.

Lemma Rsum_map_scal {A : Type} (c : R) (f : A -> R) (l : list A) :
  Rsum (map (fun x => c * f x) l) = c * Rsum (map f l).
Proof.
  induction l as [|x l IH]; simpl.
  - lra.
  - rewrite IH. lra.
Qed.

Lemma Rsum_map_ext_in {A : Type} (f g : A -> R) (l : list A) :
  (forall x, In x l -> f x = g x) -> Rsum (map f l) = Rsum (map g l).
Proof.
  intros H. f_equal. apply map_ext_in. exact H.
Qed.

Lemma Rsum_nonneg (l : list R) : Forall (fun x => 0 <= x) l -> 0 <= Rsum l.
Proof.
  induction 1 as [|x l Hx _ IH]; simpl; lra.
Qed.

Lemma Rsum_nonneg_zero (l : list R) :
  Forall (fun x => 0 <= x) l -> Rsum l = 0 -> Forall (fun x => x = 0) l.
Proof.
  induction 1 as [|x l Hx Hl IH]; simpl; intros Hs.
  - constructor.
  - pose proof (Rsum_nonneg l Hl) as Hn.
    constructor.
    + lra.
    + apply IH. lra.
Qed.

(** A list is the list of its entries read by position. *)
Lemma map_nth_seq (l : list R) : map (fun k => nth k l 0) (seq 0 (length l)) = l.
Proof.
  induction l as [|x l IH]; simpl.
  - reflexivity.
  - f_equal. rewrite <- seq_shift, map_map. exact IH.
Qed.

Lemma Rsum_over_data (l : list R) (f : R -> R) :
  Rsum_over (length l) (fun k => f (nth k l 0)) = Rsum (map f l).
Proof.
  unfold Rsum_over.
  rewrite <- (map_nth_seq l) at 2.
  rewrite map_map. reflexivity.
Qed.

(** ** numpy: arrays of one shape combine entry by entry *)

Local Open Scope nat_scope.

Lemma pad_self (sh : list nat) : Np.pad sh (length sh) = sh.
Proof.
  unfold Np.pad. rewrite Nat.sub_diag. reflexivity.
Qed.

Lemma bshape_self (sh : list nat) : Np.bshape sh sh = Some sh.
Proof.
  induction sh as [|d sh IH]; simpl.
  - reflexivity.
  - rewrite IH, Nat.eqb_refl. reflexivity.
Qed.

Lemma broadcast_shapes_self (sh : list nat) : Np.broadcast_shapes sh sh = Some sh.
Proof.
  unfold Np.broadcast_shapes.
  rewrite Nat.max_id, pad_self. apply bshape_self.
Qed.

Lemma ravel_clip_unravel (sh : list nat) (k : nat) :
  k < Np.size_of sh -> Np.ravel sh (Np.clip sh (Np.unravel sh k)) = k.
Proof.
  revert k. induction sh as [|d sh IH]; intros k Hk.
  - simpl in *. lia.
  - change (Np.size_of (d :: sh)) with (d * Np.size_of sh) in Hk.
    assert (Hpos : Np.size_of sh <> 0) by (intros E; rewrite E in Hk; lia).
    cbn [Np.unravel Np.clip Np.ravel].
    rewrite IH by (apply Nat.mod_upper_bound; exact Hpos).
    destruct (Nat.eqb_spec d 1) as [E|E].
    + subst d. rewrite Nat.mul_1_l in Hk.
      rewrite Nat.mod_small by exact Hk. lia.
    + pose proof (Nat.div_mod_eq k (Np.size_of sh)). lia.
Qed.

Lemma bget_same_shape (a : Np.ndarray) (k : nat) :
  k < Np.size_of (Np.shape a) ->
  Np.bget a (Np.shape a) k = nth k (Np.data a) 0%R.
Proof.
  intros Hk. unfold Np.bget.
  rewrite pad_self, ravel_clip_unravel by exact Hk. reflexivity.
Qed.

Lemma binop_same_shape (f : R -> R -> R) (a b : Np.ndarray) :
  Np.shape a = Np.shape b ->
  Np.binop f a b =
  ok (Np.mkarr (Np.shape a)
        (map (fun k => f (nth k (Np.data a) 0%R) (nth k (Np.data b) 0%R))
             (seq 0 (Np.size_of (Np.shape a))))).
Proof.
  intros E. unfold Np.binop.
  rewrite <- E, broadcast_shapes_self.
  unfold ok. do 2 f_equal.
  apply map_ext_in. intros k Hk. apply in_seq in Hk.
  rewrite bget_same_shape by lia.
  replace (Np.bget b (Np.shape a) k) with (nth k (Np.data b) 0%R).
  - reflexivity.
  - rewrite E. symmetry. apply bget_same_shape. rewrite <- E. lia.
Qed.

Local Open Scope R_scope.

(** ** Estimators on a loaded ensemble *)

Section Estimators.

Context {Structure Phonons : Type}.
Variable N_atoms : Phonons -> nat.
Implicit Types s : Ensemble Structure Phonons.

Local Open Scope R_scope.

Lemma is_array_asarray (v : pyobj) (sh : list nat) :
  is_array v sh ->
  v = NdArray (asarray v) /\ Np.shape (asarray v) = sh
  /\ length (Np.data (asarray v)) = Np.size_of sh.
Proof.
  intros (d & -> & Hd). simpl. auto.
Qed.

Lemma size_of_1d (n : nat) : Np.size_of [n] = n.
Proof. simpl. lia. Qed.

(** The product and the difference of two one-dimensional arrays of [n]
    entries, summed. *)
Lemma py_mul_sum_1d (x y : pyobj) (n : nat) :
  is_array x [n] -> is_array y [n] ->
  exists p, py_mul x y = ok p /\ is_array p [n] /\
    py_sum p = Rsum_over n (fun k =>
      nth k (Np.data (asarray x)) 0 * nth k (Np.data (asarray y)) 0).
Proof.
  intros (dx & -> & Hx) (dy & -> & Hy). unfold py_mul. simpl.
  unfold Np.mul. rewrite binop_same_shape by reflexivity. simpl.
  eexists. split; [reflexivity|]. split.
  - eexists. split; [reflexivity|]. rewrite length_map, length_seq. reflexivity.
  - unfold py_sum, Np.sum, Rsum_over. simpl. rewrite Nat.mul_1_r. reflexivity.
Qed.

Lemma py_sub_1d (x y : pyobj) (n : nat) :
  is_array x [n] -> is_array y [n] ->
  exists p, py_sub x y = ok p /\ is_array p [n] /\
    forall k, (k < n)%nat ->
      nth k (Np.data (asarray p)) 0
      = nth k (Np.data (asarray x)) 0 - nth k (Np.data (asarray y)) 0.
Proof.
  intros (dx & -> & Hx) (dy & -> & Hy). unfold py_sub. simpl.
  unfold Np.sub. rewrite binop_same_shape by reflexivity. simpl.
  eexists. split; [reflexivity|]. split.
  - eexists. split; [reflexivity|]. rewrite length_map, length_seq. reflexivity.
  - intros k Hk. simpl. rewrite Nat.mul_1_r.
    rewrite (nth_indep _ 0 (nth 0%nat dx 0 - nth 0%nat dy 0))
      by (rewrite length_map, length_seq; exact Hk).
    rewrite (map_nth (fun k => nth k dx 0 - nth k dy 0) (seq 0 n) 0%nat k).
    rewrite seq_nth by exact Hk. reflexivity.
Qed.

(** What [get_average_energy] returns in its two modes. *)
Lemma get_average_energy_plain s :
  loaded N_atoms s ->
  get_average_energy false s
  = ok (Rsum_over (N s) (fun i => weight s i * energy s i) / INR (N s)).
Proof.
  intros L. unfold get_average_energy.
  destruct (py_mul_sum_1d _ _ _ (loaded_rho _ _ L) (loaded_energies _ _ L))
    as (p & -> & _ & Hp).
  simpl. rewrite Hp. reflexivity.
Qed.

Lemma get_average_energy_subtract s :
  loaded N_atoms s ->
  get_average_energy true s
  = ok (Rsum_over (N s) (fun i => weight s i * (energy s i - model_energy s i))
        / INR (N s)).
Proof.
  intros L. unfold get_average_energy.
  destruct (py_sub_1d _ _ _ (loaded_energies _ _ L) (loaded_sscha_energies _ _ L))
    as (d & -> & Hd & Hk).
  simpl.
  destruct (py_mul_sum_1d _ _ _ (loaded_rho _ _ L) Hd) as (p & -> & _ & Hp).
  simpl. rewrite Hp. unfold ok. do 2 f_equal.
  unfold Rsum_over. apply Rsum_map_ext_in. intros k Hin. apply in_seq in Hin.
  unfold weight, energy, model_energy. rewrite Hk by lia. reflexivity.
Qed.

End Estimators.

Lemma two_configurations_loaded :
  loaded Example.N_atoms Example.two_configurations.
Proof.
  constructor; try reflexivity; eexists; split; reflexivity.
Qed.

Section AverageEnergy.

Context {Structure Phonons : Type}.
Variable N_atoms : Phonons -> nat.
Implicit Types s : Ensemble Structure Phonons.

Local Open Scope R_scope.

(** C7. Average-energy linearity: on a loaded ensemble with current weights
    [rho], [get_average_energy] returns [(sum_i rho_i * E_i) / N] in the plain
    mode and [(sum_i rho_i * (E_i - model_energy_i)) / N] in the subtract mode,
    and the subtract-mode value plus [(sum_i rho_i * model_energy_i) / N]
    equals the plain-mode value. *)
Theorem average_energy_linearity s :
  loaded N_atoms s ->
  (1 <= N s)%nat ->
  exists plain subtracted,
    get_average_energy false s = ok plain /\
    get_average_energy true s = ok subtracted /\
    plain = Rsum_over (N s) (fun i => weight s i * energy s i) / INR (N s) /\
    subtracted
    = Rsum_over (N s) (fun i => weight s i * (energy s i - model_energy s i))
      / INR (N s) /\
    subtracted
    + Rsum_over (N s) (fun i => weight s i * model_energy s i) / INR (N s)
    = plain.
Proof.
  intros L HN.
  do 2 eexists.
  split; [apply (get_average_energy_plain N_atoms s L)|].
  split; [apply (get_average_energy_subtract N_atoms s L)|].
  split; [reflexivity|]. split; [reflexivity|].
  unfold Rsum_over, Rdiv.
  rewrite <- Rmult_plus_distr_r, <- Rsum_map_plus.
  f_equal. apply Rsum_map_ext_in. intros i _. ring.
Qed.

End AverageEnergy.

Lemma average_energy_linearity_witness :
  exists plain subtracted,
    get_average_energy false Example.two_configurations = ok plain /\
    get_average_energy true Example.two_configurations = ok subtracted /\
    plain
    = Rsum_over 2 (fun i => weight Example.two_configurations i
                            * energy Example.two_configurations i) / INR 2 /\
    subtracted
    = Rsum_over 2 (fun i => weight Example.two_configurations i
                            * (energy Example.two_configurations i
                               - model_energy Example.two_configurations i))
      / INR 2 /\
    (subtracted
     + Rsum_over 2 (fun i => weight Example.two_configurations i
                             * model_energy Example.two_configurations i) / INR 2
     = plain).
Proof.
  apply (average_energy_linearity Example.N_atoms Example.two_configurations).
  - exact two_configurations_loaded.
  - simpl. lia.
Defined.

(** ** The effective sample size *)

Lemma Rsum_square_deviation (l : list R) :
  Rsum (map (fun x => (x - 1) * (x - 1)) l)
  = Rsum (map (fun x => x * x) l) - 2 * Rsum l + INR (length l).
Proof.
  induction l as [|x l IH].
  - simpl. lra.
  - cbn [map Rsum fold_right length]. fold (Rsum l).
    fold (Rsum (map (fun x => (x - 1) * (x - 1)) l)).
    fold (Rsum (map (fun x => x * x) l)).
    rewrite IH, S_INR. ring.
Qed.

Lemma Rsum_square_deviation_zero (l : list R) :
  Rsum (map (fun x => (x - 1) * (x - 1)) l) = 0 -> Forall (fun x => x = 1) l.
Proof.
  intros H.
  assert (Hn : Forall (fun y => 0 <= y) (map (fun x => (x - 1) * (x - 1)) l)).
  { apply Forall_map, Forall_forall. intros x _. apply (Rle_0_sqr (x - 1)). }
  pose proof (Rsum_nonneg_zero _ Hn H) as Hz.
  apply Forall_map in Hz.
  eapply Forall_impl; [|exact Hz]. cbv beta. intros x Hx.
  apply Rmult_integral in Hx. lra.
Qed.

Lemma Rsum_constant (c : R) (l : list R) :
  Forall (fun x => x = c) l -> Rsum l = INR (length l) * c.
Proof.
  induction 1 as [|x l Hx _ IH].
  - simpl. lra.
  - cbn [Rsum fold_right length]. fold (Rsum l). rewrite IH, S_INR, Hx. ring.
Qed.

Lemma Rsum_pos (l : list R) :
  Forall (fun x => 0 <= x) l -> Exists (fun x => x <> 0) l -> 0 < Rsum l.
Proof.
  intros Hn He.
  pose proof (Rsum_nonneg l Hn) as H0.
  destruct (Req_dec_T (Rsum l) 0) as [E|E]; [|lra].
  exfalso. pose proof (Rsum_nonneg_zero l Hn E) as Hz.
  apply Exists_exists in He. destruct He as (x & Hin & Hx).
  rewrite Forall_forall in Hz. apply Hx, Hz, Hin.
Qed.

Lemma Rsum_squares_pos (l : list R) :
  Exists (fun x => x <> 0) l -> 0 < Rsum (map (fun x => x * x) l).
Proof.
  intros He. apply Rsum_pos.
  - apply Forall_map, Forall_forall. intros x _. apply (Rle_0_sqr x).
  - apply Exists_exists in He. destruct He as (x & Hin & Hx).
    apply Exists_exists. exists (x * x). split.
    + apply in_map_iff. exists x. auto.
    + nra.
Qed.

Lemma kong_liu_core (l : list R) :
  Forall (fun x => 0 <= x) l -> Exists (fun x => x <> 0) l ->
  let n := INR (length l) in
  let s1 := Rsum l in
  let s2 := Rsum (map (fun x => x * x) l) in
  0 < n * s1 / s2 /\
  (s1 = n -> n * s1 / s2 <= n /\ (n * s1 / s2 = n <-> Forall (fun x => x = 1) l)).
Proof.
  intros Hn He n s1 s2.
  assert (H1 : 0 < s1) by (apply Rsum_pos; assumption).
  assert (H2 : 0 < s2) by (apply Rsum_squares_pos; assumption).
  assert (Hlen : 0 < n).
  { subst n. apply lt_0_INR. destruct l; [inversion He | simpl; lia]. }
  split.
  - apply Rdiv_lt_0_compat; [apply Rmult_lt_0_compat|]; assumption.
  - intros E.
    pose proof (Rsum_square_deviation l) as Hd.
    fold s1 s2 n in Hd.
    assert (Hdev : 0 <= Rsum (map (fun x => (x - 1) * (x - 1)) l)).
    { apply Rsum_nonneg, Forall_map, Forall_forall.
      intros x _. apply (Rle_0_sqr (x - 1)). }
    assert (Hge : n <= s2) by lra.
    rewrite E.
    split.
    + apply (Rmult_le_reg_r s2); [exact H2|].
      unfold Rdiv. rewrite Rmult_assoc, Rinv_l by lra. nra.
    + split.
      * intros Heq.
        apply Rsum_square_deviation_zero.
        assert (s2 = n).
        { apply (f_equal (fun t => t * s2)) in Heq.
          unfold Rdiv in Heq. rewrite Rmult_assoc, Rinv_l in Heq by lra. nra. }
        lra.
      * intros Hall.
        assert (Hs2 : s2 = n).
        { subst s2 n. rewrite (Rsum_constant 1).
          - rewrite length_map. lra.
          - apply Forall_map. eapply Forall_impl; [|exact Hall].
            cbv beta. intros x ->. lra. }
        rewrite Hs2. field. lra.
Qed.

Section EffectiveSampleSize.

Context {Structure Phonons : Type}.
Implicit Types s : Ensemble Structure Phonons.

Lemma sum_weights_data s :
  is_array (rho s) [N s] ->
  length (Np.data (asarray (rho s))) = N s
  /\ sum_weights s = Rsum (Np.data (asarray (rho s)))
  /\ sum_square_weights s = Rsum (map (fun x => x * x) (Np.data (asarray (rho s)))).
Proof.
  intros (d & E & Hd). rewrite size_of_1d in Hd.
  unfold sum_weights, sum_square_weights, weight. rewrite E. simpl.
  split; [exact Hd|]. rewrite <- Hd. split.
  - rewrite (Rsum_over_data d (fun x => x)), map_id. reflexivity.
  - apply (Rsum_over_data d (fun x => x * x)).
Qed.

(** What [get_effective_sample_size] returns on a one-dimensional weight
    array of [N] entries. *)
Lemma get_effective_sample_size_value s :
  is_array (rho s) [N s] ->
  get_effective_sample_size s
  = ok (INR (N s) * sum_weights s / sum_square_weights s).
Proof.
  intros H. destruct (sum_weights_data s H) as (_ & -> & ->).
  destruct H as (d & E & _).
  unfold get_effective_sample_size. rewrite E. reflexivity.
Qed.

End EffectiveSampleSize.

Section EffectiveSampleSizeBounds.

Context {Structure Phonons : Type}.
Implicit Types s : Ensemble Structure Phonons.

Lemma valid_weights_data s :
  length (Np.data (asarray (rho s))) = N s ->
  valid_weights s ->
  Forall (fun x => 0 <= x) (Np.data (asarray (rho s)))
  /\ Exists (fun x => x <> 0) (Np.data (asarray (rho s))).
Proof.
  intros Hlen (Hn & i & Hi & Hnz). unfold weight in *. split.
  - apply Forall_nth. intros k d Hk.
    rewrite (nth_indep _ d 0) by exact Hk. apply Hn. lia.
  - apply Exists_nth. exists i, 0. split; [lia | exact Hnz].
Qed.

Lemma all_weights_one_iff_equal s :
  length (Np.data (asarray (rho s))) = N s ->
  (1 <= N s)%nat ->
  Rsum (Np.data (asarray (rho s))) = INR (N s) ->
  (Forall (fun x => x = 1) (Np.data (asarray (rho s))) <-> all_weights_equal s).
Proof.
  intros Hlen HN Hsum. unfold all_weights_equal, weight.
  set (l := Np.data (asarray (rho s))) in *.
  split.
  - intros Hall i j Hi Hj.
    rewrite Forall_nth in Hall.
    rewrite (Hall i 0), (Hall j 0) by lia. reflexivity.
  - intros Heq.
    assert (Hc : Forall (fun x => x = nth 0 l 0) l).
    { apply Forall_nth. intros k d Hk.
      rewrite (nth_indep _ d 0) by exact Hk. apply Heq; lia. }
    pose proof (Rsum_constant _ _ Hc) as Hs.
    rewrite Hlen, Hsum in Hs.
    assert (Hpos : 0 < INR (N s)) by (apply lt_0_INR; lia).
    assert (H1 : nth 0 l 0 = 1) by nra.
    rewrite H1 in Hc. exact Hc.
Qed.

(** C3, as amended. On a weight array of [N] entries with every weight
    non-negative and not all zero, [get_effective_sample_size] returns
    [N * (sum rho) / (sum rho^2)], which is strictly positive; when the
    weights are normalised so that [sum rho = N] it is at most [N], and it
    equals [N] exactly when all weights are equal. *)
Theorem effective_sample_size_bounds s :
  is_array (rho s) [N s] ->
  valid_weights s ->
  exists ess,
    get_effective_sample_size s = ok ess /\
    ess = INR (N s) * sum_weights s / sum_square_weights s /\
    0 < ess /\
    (sum_weights s = INR (N s) ->
     ess <= INR (N s) /\ (ess = INR (N s) <-> all_weights_equal s)).
Proof.
  intros Ha Hv.
  exists (INR (N s) * sum_weights s / sum_square_weights s).
  split; [apply get_effective_sample_size_value; exact Ha|].
  split; [reflexivity|].
  destruct (sum_weights_data s Ha) as (Hlen & E1 & E2).
  destruct (valid_weights_data s Hlen Hv) as (Hn & He).
  assert (HN : (1 <= N s)%nat).
  { destruct Hv as (_ & i & Hi & _). lia. }
  pose proof (kong_liu_core _ Hn He) as Hcore. cbv zeta in Hcore.
  rewrite Hlen, <- E1, <- E2 in Hcore.
  destruct Hcore as (Hpos & Hnorm).
  split; [exact Hpos|].
  intros Hsum. destruct (Hnorm Hsum) as (Hle & Hiff).
  split; [exact Hle|].
  rewrite Hiff. apply all_weights_one_iff_equal; try assumption.
  rewrite <- E1. exact Hsum.
Qed.

End EffectiveSampleSizeBounds.

Lemma two_configurations_valid_weights :
  is_array (rho Example.two_configurations) [N Example.two_configurations]
  /\ valid_weights Example.two_configurations.
Proof.
  split.
  - eexists. split; reflexivity.
  - split.
    + intros [|[|i]] Hi; unfold weight; simpl in *; try lra; lia.
    + exists 0%nat. unfold weight. simpl. split; [lia | lra].
Qed.

Lemma effective_sample_size_bounds_witness :
  exists ess,
    get_effective_sample_size Example.two_configurations = ok ess /\
    ess = INR 2 * sum_weights Example.two_configurations
          / sum_square_weights Example.two_configurations /\
    0 < ess /\
    (sum_weights Example.two_configurations = INR 2 ->
     ess <= INR 2 /\ (ess = INR 2 <-> all_weights_equal Example.two_configurations)).
Proof.
  apply (effective_sample_size_bounds Example.two_configurations).
  - exact (proj1 two_configurations_valid_weights).
  - exact (proj2 two_configurations_valid_weights).
Defined.

(** C3, the claim as stated fails: with two configurations of weight one
    half each, all weights are equal, yet the value returned is [4 > N = 2]. *)
Lemma effective_sample_size_exceeds_N :
  is_array (rho Example.half_weights) [N Example.half_weights]
  /\ valid_weights Example.half_weights
  /\ all_weights_equal Example.half_weights
  /\ get_effective_sample_size Example.half_weights = ok 4
  /\ ~ (exists ess,
          get_effective_sample_size Example.half_weights = ok ess
          /\ 0 < ess <= INR (N Example.half_weights)
          /\ (ess = INR (N Example.half_weights)
              <-> all_weights_equal Example.half_weights)).
Proof.
  split; [eexists; split; reflexivity|].
  split.
  { split.
    - intros [|[|i]] Hi; unfold weight; simpl in *; try lra; lia.
    - exists 0%nat. unfold weight. simpl. split; [lia | lra]. }
  split.
  { intros [|[|i]] [|[|j]] Hi Hj; unfold weight; simpl in *; try reflexivity; lia. }
  assert (E4 : get_effective_sample_size Example.half_weights = ok 4).
  { unfold get_effective_sample_size, Example.half_weights. simpl.
    unfold py_sum, Np.sum. simpl. unfold ok. f_equal. field. }
  split; [exact E4|].
  intros (ess & E & (_ & Hle) & _).
  rewrite E4 in E. injection E as <-. simpl in Hle. lra.
Qed.

(** ** The occupation amplitude *)

Lemma K_to_Ry_pos : 0 < K_to_Ry.
Proof. unfold K_to_Ry. lra. Qed.

Lemma sinh_pos (x : R) : 0 < x -> 0 < sinh x.
Proof.
  intros Hx. rewrite <- sinh_0. apply sinh_lt. exact Hx.
Qed.

Lemma sinh_lt_cosh (x : R) : sinh x < cosh x.
Proof.
  unfold sinh, cosh. pose proof (exp_pos (- x)). lra.
Qed.

Lemma tanh_bounds (x : R) : 0 < x -> 0 < tanh x < 1.
Proof.
  intros Hx. pose proof (sinh_pos x Hx) as Hs. pose proof (sinh_lt_cosh x) as Hc.
  unfold tanh. split.
  - apply Rdiv_lt_0_compat; lra.
  - apply (Rmult_lt_reg_r (cosh x)); [lra|].
    unfold Rdiv. rewrite Rmult_assoc, Rinv_l by lra. lra.
Qed.

Lemma coth_tanh (x : R) : 0 < x -> coth x = / tanh x.
Proof.
  intros Hx. pose proof (sinh_pos x Hx) as Hs. pose proof (sinh_lt_cosh x) as Hc.
  unfold coth, tanh. field. lra.
Qed.

Lemma coth_gt_1 (x : R) : 0 < x -> 1 < coth x.
Proof.
  intros Hx. pose proof (sinh_pos x Hx) as Hs. pose proof (sinh_lt_cosh x) as Hc.
  unfold coth.
  apply (Rmult_lt_reg_r (sinh x)); [lra|].
  unfold Rdiv. rewrite Rmult_assoc, Rinv_l by lra. lra.
Qed.

Lemma xdiv_sqrt_pos (x y : R) :
  0 < y -> X.div (Fin x) (X.sqrt (Fin y)) = Fin (x / sqrt y).
Proof.
  intros Hy. pose proof (sqrt_lt_R0 y Hy) as Hs.
  unfold X.div, X.sqrt, X.inv, X.mul.
  destruct (Rlt_dec y 0) as [H|_]; [lra|].
  destruct (Req_dec_T (sqrt y) 0) as [H|_]; [lra|].
  reflexivity.
Qed.

Lemma a_mu_zero_temperature (w : R) :
  0 < w -> a_mu 0 w = Fin (1 / sqrt (2 * w)).
Proof.
  intros Hw. unfold a_mu.
  destruct (Req_dec_T 0 0) as [_|H]; [|contradiction].
  apply xdiv_sqrt_pos. lra.
Qed.

Lemma da_dw_zero_temperature (w : R) :
  0 < w -> da_dw 0 w = Fin (-1 / sqrt (8 * w ^ 3)).
Proof.
  intros Hw. unfold da_dw.
  destruct (Req_dec_T 0 0) as [_|H]; [|contradiction].
  apply xdiv_sqrt_pos.
  assert (0 < w ^ 3) by (apply pow_lt; exact Hw). lra.
Qed.

Lemma a_mu_finite_temperature (T w : R) :
  0 < T -> 0 < w ->
  a_mu T w = Fin (1 / sqrt (2 * w * tanh (w / (2 * (K_to_Ry * T))))).
Proof.
  intros HT Hw. unfold a_mu. destruct (Req_dec_T T 0) as [E|_]; [lra|].
  pose proof K_to_Ry_pos as HK.
  assert (Hx : 0 < w / (2 * (K_to_Ry * T))) by (apply Rdiv_lt_0_compat; nra).
  pose proof (tanh_bounds _ Hx) as [Ht _].
  replace (1 / (K_to_Ry * T) * w / 2) with (w / (2 * (K_to_Ry * T)))
    by (field; split; lra).
  replace (tanh (w / (2 * (K_to_Ry * T))) * 2 * w)
    with (2 * w * tanh (w / (2 * (K_to_Ry * T)))) by ring.
  apply xdiv_sqrt_pos. nra.
Qed.

(** C4, as amended. For a frequency [w > 0] the amplitude factor of the
    gradient computation is [1 / sqrt (2 w)] with derivative
    [-1 / sqrt (8 w^3)] at temperature 0, and at a temperature [T > 0] it is
    [1 / sqrt (2 w tanh (w / (2 k_B T)))], that is
    [1 / sqrt (2 w / coth (w / (2 k_B T)))]: the hyperbolic cotangent divides
    [2 w], it does not multiply it. *)
Theorem amplitude_branches (T w : R) :
  0 < w ->
  (T = 0 ->
   a_mu T w = Fin (1 / sqrt (2 * w))
   /\ da_dw T w = Fin (-1 / sqrt (8 * w ^ 3)))
  /\ (0 < T ->
      a_mu T w = Fin (1 / sqrt (2 * w * tanh (w / (2 * (K_to_Ry * T)))))
      /\ a_mu T w = Fin (1 / sqrt (2 * w / coth (w / (2 * (K_to_Ry * T)))))).
Proof.
  intros Hw. split.
  - intros ->. split.
    + apply a_mu_zero_temperature. exact Hw.
    + apply da_dw_zero_temperature. exact Hw.
  - intros HT.
    assert (Hx : 0 < w / (2 * (K_to_Ry * T))).
    { pose proof K_to_Ry_pos. apply Rdiv_lt_0_compat; nra. }
    rewrite a_mu_finite_temperature by assumption.
    split; [reflexivity|].
    rewrite coth_tanh by exact Hx.
    do 3 f_equal. unfold Rdiv. rewrite Rinv_inv. reflexivity.
Qed.

Lemma amplitude_branches_witness :
  (a_mu 0 (1 / 1000) = Fin (1 / sqrt (2 * (1 / 1000)))
   /\ da_dw 0 (1 / 1000) = Fin (-1 / sqrt (8 * (1 / 1000) ^ 3)))
  /\ (a_mu 300 (1 / 1000)
      = Fin (1 / sqrt (2 * (1 / 1000)
                       * tanh (1 / 1000 / (2 * (K_to_Ry * 300)))))
      /\ a_mu 300 (1 / 1000)
         = Fin (1 / sqrt (2 * (1 / 1000)
                          / coth (1 / 1000 / (2 * (K_to_Ry * 300)))))).
Proof.
  split.
  - apply (proj1 (amplitude_branches 0 (1 / 1000) ltac:(lra))). reflexivity.
  - apply (proj2 (amplitude_branches 300 (1 / 1000) ltac:(lra))). lra.
Defined.

(** C4, the claim as stated fails at a positive temperature: at
    [w = 1/1000] and [T = 300], where [w / (2 k_B T)] is about 0.26, the
    amplitude computed by the code differs from
    [1 / sqrt (2 w coth (w / (2 k_B T)))]. *)
Lemma amplitude_is_not_coth_product :
  0 < 1 / 1000 /\ 0 < 300
  /\ a_mu 300 (1 / 1000) <> Fin (claimed_amplitude 300 (1 / 1000)).
Proof.
  split; [lra|]. split; [lra|].
  pose proof K_to_Ry_pos as HK.
  assert (Hx : 0 < 1 / 1000 / (2 * (K_to_Ry * 300))).
  { apply Rdiv_lt_0_compat; lra. }
  pose proof (tanh_bounds _ Hx) as [Ht0 Ht1].
  pose proof (coth_gt_1 _ Hx) as Hc.
  rewrite a_mu_finite_temperature by lra. unfold claimed_amplitude.
  set (x := 1 / 1000 / (2 * (K_to_Ry * 300))) in *.
  intros E. injection E as E.
  assert (Ha : 0 < sqrt (2 * (1 / 1000) * tanh x)) by (apply sqrt_lt_R0; lra).
  assert (Hb : 0 < sqrt (2 * (1 / 1000) * coth x)) by (apply sqrt_lt_R0; lra).
  assert (Es : sqrt (2 * (1 / 1000) * tanh x) = sqrt (2 * (1 / 1000) * coth x)).
  { apply Rinv_eq_reg.
    rewrite <- (Rmult_1_l (/ sqrt (2 * (1 / 1000) * tanh x))).
    rewrite <- (Rmult_1_l (/ sqrt (2 * (1 / 1000) * coth x))).
    exact E. }
  apply sqrt_inj in Es; lra.
Qed.

(** ** Loading *)


Lemma setitem_shape (a a' : Np.ndarray) (i : nat) (v : Np.ndarray) :
  Np.setitem a i v = ok a' -> Np.shape a' = Np.shape a.
Proof.
  unfold Np.setitem.
  destruct (Np.shape a) as [|d blk] eqn:E; [discriminate|].
  destruct (i <? d)%nat; [|discriminate].
  destruct (Np.broadcast_to v blk); [|discriminate].
  intros H. injection H as <-. reflexivity.
Qed.

Lemma py_setitem_array (what : string) (a : Np.ndarray) (i : nat) (v : R)
    (x : pyobj) :
  py_setitem what (NdArray a) i v = ok x ->
  exists a', x = NdArray a' /\ Np.shape a' = Np.shape a.
Proof.
  simpl. destruct (Np.setitem a i (Np.scalar v)) as [e|a'] eqn:E; simpl.
  - discriminate.
  - intros H. injection H as <-. exists a'. split; [reflexivity|].
    eapply setitem_shape. exact E.
Qed.

Section LoadFails.

Context {Structure Phonons : Type}.
Variable N_atoms : Phonons -> nat.
Variable alat : Phonons -> R.
Variable get_energy_forces : Phonons -> Structure -> result (R * Np.ndarray).
Variable read_scf : string -> R -> result Structure.
Variable with_unit_cell : Structure -> Phonons -> Structure.
Variable isdir : string -> bool.
Variable loadtxt : string -> result Np.ndarray.
Implicit Types s : Ensemble Structure Phonons.

Local Open Scope nat_scope.

Local Abbreviation body :=
  (load_body alat get_energy_forces read_scf with_unit_cell loadtxt).
Local Abbreviation load_ :=
  (load N_atoms alat get_energy_forces read_scf with_unit_cell isdir loadtxt).


(** One pass of the loop body of [load] on a state whose model forces are
    still a Python list: it raises, and leaves the model forces, the weights,
    the size and the shape of the model energies as they were. *)
Lemma load_body_raises (dir : string) (population : Z) (i : nat) s
    (l : list R) (a : Np.ndarray) :
  sscha_forces s = PyList l ->
  sscha_energies s = NdArray a ->
  exists e,
    fst (body dir population i s) = inl e
    /\ sscha_forces (snd (body dir population i s)) = PyList l
    /\ rho (snd (body dir population i s)) = rho s
    /\ exists a', sscha_energies (snd (body dir population i s)) = NdArray a'
                  /\ Np.shape a' = Np.shape a.
Proof.
  intros Hf He. unfold load_body, bind, lift, gets, modify. simpl.
  destruct (read_scf _ _) as [e|st]; simpl; [eauto 10|].
  destruct (loadtxt _) as [e|f]; simpl; [eauto 10|].
  destruct (py_setitem3 (forces s) i _) as [e|f1]; simpl; [eauto 10|].
  destruct (loadtxt _) as [e|p]; simpl; [eauto 10|].
  destruct (py_setitem3 (stresses s) i p) as [e|p1]; simpl; [eauto 10|].
  destruct (get_energy_forces _ _) as [e|ef]; simpl; [eauto 10|].
  rewrite He.
  destruct (py_setitem _ (NdArray a) i (fst ef)) as [e|e1] eqn:E1; simpl;
    [eauto 10|].
  apply py_setitem_array in E1. destruct E1 as (a' & -> & Hs).
  rewrite Hf. simpl. eauto 10.
Qed.


Lemma setitem3_zeros_ok (n a b i : nat) (v : Np.ndarray) :
  (i < n)%nat -> Np.broadcast_to v [a; b] <> None ->
  exists x, py_setitem3 (NdArray (Np.zeros [n; a; b])) i v = ok x.
Proof.
  intros Hi Hb. unfold py_setitem3, Np.setitem3, Np.setitem.
  cbn [Np.shape Np.zeros length]. rewrite Nat.ltb_irrefl.
  apply Nat.ltb_lt in Hi. rewrite Hi.
  destruct (Np.broadcast_to v [a; b]) as [xs|]; [|contradiction].
  simpl. eauto.
Qed.

Lemma setitem_scalar_zeros_ok (what : string) (n a b i : nat) (v : R) :
  (i < n)%nat ->
  exists x, py_setitem what (NdArray (Np.zeros [n; a; b])) i v = ok x.
Proof.
  intros Hi. unfold py_setitem, Np.setitem.
  cbn [Np.shape Np.zeros]. apply Nat.ltb_lt in Hi. rewrite Hi.
  unfold Np.broadcast_to.
  cbn [Np.scalar Np.shape Np.strip_ones length Nat.leb Np.pad Nat.sub repeat
       app Np.fits Nat.eqb].
  rewrite !orb_true_r. simpl. eauto.
Qed.

(** The first pass of the loop on the freshly allocated arrays, when every
    collaborator returns: the tuple-indexed assignment into the list raises. *)
Lemma load_body_first_type_error (dir : string) (population : Z) (n : nat) s :
  (1 <= n)%nat ->
  sscha_forces s = PyList [] ->
  forces s = NdArray (Np.zeros [n; N_atoms (dyn_0 s); 3]) ->
  stresses s = NdArray (Np.zeros [n; 3; 3]) ->
  sscha_energies s = NdArray (Np.zeros [n; N_atoms (dyn_0 s); 3]) ->
  first_configuration_readable N_atoms alat get_energy_forces read_scf
    with_unit_cell loadtxt (dyn_0 s) dir population ->
  fst (body dir population 0 s) = inl tuple_index_error.
Proof.
  intros Hn Hsf Hf Hp He (st & f & p & ef & R1 & R2 & R3 & R4 & R5 & R6).
  unfold load_body, bind, lift, gets, modify. simpl.
  rewrite R1. simpl. rewrite R2. simpl. rewrite Hf.
  destruct (setitem3_zeros_ok n _ 3 0 _ Hn R3) as (f1 & ->). simpl.
  rewrite R4. simpl. rewrite Hp.
  destruct (setitem3_zeros_ok n 3 3 0 _ Hn R5) as (p1 & ->). simpl.
  rewrite R6. simpl. rewrite He.
  destruct (setitem_scalar_zeros_ok
              "self.sscha_energies[i]: index out of range"
              n (N_atoms (dyn_0 s)) 3 0 (fst ef) Hn) as (e1 & ->).
  simpl. rewrite Hsf. reflexivity.
Qed.

(** C9. [load] never allocates the model forces: they stay the empty list of
    the constructor, while the model energies are allocated twice, the second
    time with the shape [(N, N_atoms, 3)] of the forces. Hence for every
    [N >= 1] the call raises during the first configuration, it never
    completes, the weights are never set to 1, and no one-dimensional array of
    [N] model energies is stored; when every collaborator returns for the
    first configuration the exception is the one of the tuple-indexed
    assignment into the list. *)
Theorem load_never_completes (data_dir : string) (population : Z) (n : nat) s :
  1 <= n ->
  sscha_forces s = PyList [] ->
  let out := load_ data_dir population n s in
  (exists e, fst out = inl e)
  /\ sscha_forces (snd out) = PyList []
  /\ rho (snd out) = rho s
  /\ (sscha_energies (snd out) = sscha_energies s
      \/ exists a, sscha_energies (snd out) = NdArray a
                   /\ Np.shape a = [n; N_atoms (dyn_0 s); 3])
  /\ (forall dir,
        isdir data_dir = true -> strip_slash data_dir = ok dir ->
        (exists a, sscha_energies (snd out) = NdArray a
                   /\ Np.shape a = [n; N_atoms (dyn_0 s); 3])
        /\ (first_configuration_readable N_atoms alat get_energy_forces
              read_scf with_unit_cell loadtxt (dyn_0 s) dir population ->
            fst out = inl tuple_index_error)).
Proof.
  intros Hn Hsf out. subst out. unfold load.
  destruct (isdir data_dir) eqn:Hdir; simpl.
  2:{ unfold lift. simpl.
      split; [eexists; reflexivity|]. split; [exact Hsf|].
      split; [reflexivity|]. split; [left; reflexivity|].
      intros dir H. discriminate. }
  unfold bind at 1. unfold lift at 1.
  destruct (strip_slash data_dir) as [e|dir] eqn:Hstrip.
  { simpl.
    split; [eexists; reflexivity|]. split; [exact Hsf|].
    split; [reflexivity|]. split; [left; reflexivity|].
    intros dir' _ H. discriminate. }
  unfold bind, modify, gets, for_range. simpl.
  destruct n as [|m]; [lia|]. cbn [seq for_each]. unfold bind.
  set (s1 := set_sscha_energies _ _).
  assert (Hsf1 : sscha_forces s1 = PyList []) by exact Hsf.
  assert (He1 : sscha_energies s1
                = NdArray (Np.zeros [S m; N_atoms (dyn_0 s); 3])) by reflexivity.
  destruct (load_body_raises dir population 0 s1 [] _ Hsf1 He1)
    as (e & Hfst & Hsf2 & Hrho & a' & Hen & Hshape).
  assert (Hfirst :
    first_configuration_readable N_atoms alat get_energy_forces read_scf
      with_unit_cell loadtxt (dyn_0 s) dir population ->
    fst (body dir population 0 s1) = inl tuple_index_error).
  { intros Hr. apply (load_body_first_type_error dir population (S m) s1);
      try reflexivity; try assumption. }
  destruct (body dir population 0 s1) as [[e'|u] s2]; simpl in *;
    [|discriminate].
  split; [eexists; reflexivity|]. split; [exact Hsf2|]. split; [exact Hrho|].
  split; [right; eauto|].
  intros dir' _ Hd. injection Hd as <-. split; [eauto|].
  intros Hr. exact (Hfirst Hr).
Qed.

End LoadFails.

Lemma example_first_configuration_readable :
  first_configuration_readable Example.N_atoms Example.alat
    Example.get_energy_forces Example.read_scf Example.with_unit_cell
    Example.loadtxt 0%nat "data" 1.
Proof.
  exists 0%nat, (Np.mkarr [3%nat] [0; 0; 0]), (Np.mkarr [3%nat] [0; 0; 0]),
         (0, Np.mkarr [1%nat; 3%nat] [0; 0; 0]).
  repeat split; try reflexivity; unfold Np.broadcast_to; simpl; discriminate.
Qed.

Lemma load_never_completes_witness :
  let out :=
    load Example.N_atoms Example.alat Example.get_energy_forces
      Example.read_scf Example.with_unit_cell Example.isdir Example.loadtxt
      "data" 1 1 Example.fresh in
  fst out = inl tuple_index_error
  /\ sscha_forces (snd out) = PyList []
  /\ rho (snd out) = PyList []
  /\ exists a, sscha_energies (snd out) = NdArray a
                /\ Np.shape a = [1%nat; 1%nat; 3%nat].
Proof.
  pose proof (load_never_completes Example.N_atoms Example.alat
                Example.get_energy_forces Example.read_scf
                Example.with_unit_cell Example.isdir Example.loadtxt
                "data" 1 1 Example.fresh ltac:(lia) eq_refl) as H.
  cbv zeta in H. destruct H as (_ & Hsf & Hrho & _ & Hdir).
  destruct (Hdir "data"%string eq_refl eq_refl) as (Hen & Herr).
  cbv zeta. split; [|split; [|split]].
  - apply Herr. exact example_first_configuration_readable.
  - exact Hsf.
  - exact Hrho.
  - exact Hen.
Defined.

(** ** Assignment into a block of an array *)

Local Open Scope nat_scope.

Lemma nth_splice (d xs : list R) (lo idx : nat) :
  lo + length xs <= length d ->
  idx < lo \/ lo + length xs <= idx ->
  nth idx (firstn lo d ++ xs ++ skipn (lo + length xs) d) 0%R = nth idx d 0%R.
Proof.
  intros Hlen Hidx.
  assert (Hf : length (firstn lo d) = lo) by (rewrite length_firstn; lia).
  destruct Hidx as [H|H].
  - rewrite app_nth1 by lia. rewrite nth_firstn.
    apply Nat.ltb_lt in H. rewrite H. reflexivity.
  - rewrite app_nth2 by lia. rewrite app_nth2 by lia.
    rewrite nth_skipn. f_equal. lia.
Qed.

Lemma nth_splice_inside (d xs : list R) (lo k : nat) :
  lo <= length d -> k < length xs ->
  nth (lo + k) (firstn lo d ++ xs ++ skipn (lo + length xs) d) 0%R
  = nth k xs 0%R.
Proof.
  intros Hlen Hk.
  assert (Hf : length (firstn lo d) = lo) by (rewrite length_firstn; lia).
  rewrite app_nth2 by lia. rewrite app_nth1 by lia. f_equal. lia.
Qed.

Lemma length_splice (d xs : list R) (lo : nat) :
  lo + length xs <= length d ->
  length (firstn lo d ++ xs ++ skipn (lo + length xs) d) = length d.
Proof.
  intros H. rewrite !length_app, length_firstn, length_skipn. lia.
Qed.

Lemma broadcast_to_length (v : Np.ndarray) (target : list nat) (xs : list R) :
  Np.broadcast_to v target = Some xs -> length xs = Np.size_of target.
Proof.
  unfold Np.broadcast_to.
  destruct (_ <=? _); [|discriminate].
  destruct (Np.fits _ _); [|discriminate].
  intros H. injection H as <-. rewrite length_map, length_seq. reflexivity.
Qed.

(** [a[i] = v] on a well-formed array: the shape is kept, block [i] holds the
    broadcast value and every other entry is kept. *)
Lemma setitem_spec (a a' : Np.ndarray) (i : nat) (v : Np.ndarray) :
  Np.wf a -> Np.setitem a i v = ok a' ->
  exists d blk xs,
    Np.shape a = d :: blk /\ i < d
    /\ Np.broadcast_to v blk = Some xs
    /\ Np.shape a' = Np.shape a
    /\ Np.wf a'
    /\ (forall k, k < Np.size_of blk ->
          nth (i * Np.size_of blk + k) (Np.data a') 0%R = nth k xs 0%R)
    /\ (forall idx, idx < i * Np.size_of blk \/ (i + 1) * Np.size_of blk <= idx ->
          nth idx (Np.data a') 0%R = nth idx (Np.data a) 0%R).
Proof.
  unfold Np.wf, Np.setitem. intros Hwf.
  destruct (Np.shape a) as [|d blk] eqn:E; [discriminate|].
  destruct (Nat.ltb_spec i d) as [Hi|Hi]; [|discriminate].
  destruct (Np.broadcast_to v blk) as [xs|] eqn:B; [|discriminate].
  intros H. injection H as <-.
  pose proof (broadcast_to_length _ _ _ B) as Hxs.
  change (Np.size_of (d :: blk)) with (d * Np.size_of blk) in Hwf.
  assert (Hfit : i * Np.size_of blk + length xs <= length (Np.data a)) by nia.
  replace ((i + 1) * Np.size_of blk) with (i * Np.size_of blk + length xs) by lia.
  exists d, blk, xs. cbn [Np.shape Np.data].
  split; [reflexivity|]. split; [exact Hi|]. split; [exact B|].
  split; [reflexivity|]. split.
  - rewrite length_splice by exact Hfit. exact Hwf.
  - split.
    + intros k Hk. apply nth_splice_inside; lia.
    + intros idx Hidx. apply nth_splice; lia.
Qed.

Lemma py_setitem_1d (what : string) (x : pyobj) (n i : nat) (v : R) :
  is_array x [n] -> i < n ->
  exists x',
    py_setitem what x i v = ok x'
    /\ is_array x' [n]
    /\ nth i (Np.data (asarray x')) 0%R = v
    /\ forall j, j <> i ->
         nth j (Np.data (asarray x')) 0%R = nth j (Np.data (asarray x)) 0%R.
Proof.
  intros (d & -> & Hd) Hi.
  destruct (Np.setitem (Np.mkarr [n] d) i (Np.scalar v)) as [e|a'] eqn:E.
  - exfalso. unfold Np.setitem in E. cbn [Np.shape] in E.
    apply Nat.ltb_lt in Hi. rewrite Hi in E. discriminate.
  - destruct (setitem_spec _ _ _ _ (Hd : Np.wf (Np.mkarr [n] d)) E)
      as (d0 & blk & xs & Hsh & _ & Hb & Hsh' & Hwf & Hin & Hout).
    cbn [Np.shape] in Hsh. injection Hsh as <- <-.
    cbn in Hb. injection Hb as <-.
    exists (NdArray a'). simpl. rewrite E. simpl.
    split; [reflexivity|]. split.
    + destruct a' as [sh' d']. cbn [Np.shape Np.data] in *. subst sh'.
      exists d'. split; [reflexivity|]. exact Hwf.
    + split.
      * specialize (Hin 0). cbn in Hin. rewrite Nat.mul_1_r, Nat.add_0_r in Hin.
        apply Hin. lia.
      * intros j Hj. apply Hout. cbn. lia.
Qed.

Lemma py_setitem3_3d (x : pyobj) (n a b i : nat) (v : Np.ndarray) (xs : list R) :
  is_array x [n; a; b] -> i < n -> Np.broadcast_to v [a; b] = Some xs ->
  exists x',
    py_setitem3 x i v = ok x'
    /\ is_array x' [n; a; b]
    /\ (forall k, k < a * b ->
          nth (i * (a * b) + k) (Np.data (asarray x')) 0%R = nth k xs 0%R)
    /\ forall idx, idx < i * (a * b) \/ (i + 1) * (a * b) <= idx ->
         nth idx (Np.data (asarray x')) 0%R = nth idx (Np.data (asarray x)) 0%R.
Proof.
  intros (d & -> & Hd) Hi Hb.
  assert (Hsz : Np.size_of [a; b] = a * b) by (cbn; lia).
  destruct (Np.setitem (Np.mkarr [n; a; b] d) i v) as [e|a'] eqn:E.
  - exfalso. unfold Np.setitem in E. cbn [Np.shape] in E.
    apply Nat.ltb_lt in Hi. rewrite Hi, Hb in E. discriminate.
  - destruct (setitem_spec _ _ _ _ (Hd : Np.wf (Np.mkarr [n; a; b] d)) E)
      as (d0 & blk & xs' & Hsh & _ & Hb' & Hsh' & Hwf & Hin & Hout).
    cbn [Np.shape] in Hsh. injection Hsh as <- <-.
    rewrite Hb in Hb'. injection Hb' as <-. rewrite Hsz in *.
    exists (NdArray a'). unfold py_setitem3, Np.setitem3.
    cbn [Np.shape length]. rewrite Nat.ltb_irrefl, E. simpl.
    split; [reflexivity|]. split.
    + destruct a' as [sh' d']. cbn [Np.shape Np.data] in *. subst sh'.
      exists d'. split; [reflexivity|]. exact Hwf.
    + split; assumption.
Qed.

Lemma py_setitem3_no_fit (x : pyobj) (n a b i : nat) (v : Np.ndarray) :
  is_array x [n; a; b] -> i < n -> Np.broadcast_to v [a; b] = None ->
  py_setitem3 x i v = raise (ValueError "could not broadcast input array").
Proof.
  intros (d & -> & Hd) Hi Hb.
  unfold py_setitem3, Np.setitem3, Np.setitem. cbn [Np.shape length].
  apply Nat.ltb_lt in Hi. rewrite Nat.ltb_irrefl, Hi, Hb. reflexivity.
Qed.

(** ** Reweighting, one configuration at a time *)

Section Reweighting.

Context {Structure Phonons : Type}.
Variable N_atoms : Phonons -> nat.
Variable get_energy_forces : Phonons -> Structure -> result (R * Np.ndarray).
Variable GetRatioProbability :
  Phonons -> Structure -> R -> R -> Phonons -> result R.
Implicit Types s : Ensemble Structure Phonons.

Local Abbreviation body :=
  (update_weights_body get_energy_forces GetRatioProbability).
Local Abbreviation update_weights_ :=
  (update_weights get_energy_forces GetRatioProbability).
Local Abbreviation touches_only := (touches_only N_atoms).
Local Abbreviation reweighted_at :=
  (reweighted_at get_energy_forces GetRatioProbability).
Local Abbreviation passes_done :=
  (passes_done N_atoms get_energy_forces GetRatioProbability).
Local Abbreviation pass_completes :=
  (pass_completes N_atoms get_energy_forces GetRatioProbability).


Lemma touches_only_intro (i : nat) s s' :
  reweightable N_atoms s ->
  same_ground_truth s s' ->
  current_T s' = current_T s ->
  current_dyn s' = current_dyn s ->
  is_array (rho s') [N s] ->
  (forall j, j <> i -> nth j (Np.data (asarray (rho s'))) 0%R
                       = nth j (Np.data (asarray (rho s))) 0%R) ->
  is_array (sscha_energies s') [N s] ->
  (forall j, j <> i -> nth j (Np.data (asarray (sscha_energies s'))) 0%R
                       = nth j (Np.data (asarray (sscha_energies s))) 0%R) ->
  is_array (sscha_forces s') [N s; N_atoms (dyn_0 s); 3] ->
  (forall idx,
     idx < i * (N_atoms (dyn_0 s) * 3) \/ (i + 1) * (N_atoms (dyn_0 s) * 3) <= idx ->
     nth idx (Np.data (asarray (sscha_forces s'))) 0%R
     = nth idx (Np.data (asarray (sscha_forces s))) 0%R) ->
  touches_only i s s'.
Proof.
  intros [Hst Hrho Hen Hfo] G HT Hd A1 K1 A2 K2 A3 K3.
  pose proof G as [GN Gs _ _ _ Gd _ _].
  constructor; try assumption.
  - constructor; rewrite ?GN, ?Gs, ?Gd; assumption.
  - intros j Hj. unfold configuration_kept, weight, model_energy, model_force.
    split; [apply K1; exact Hj|]. split; [apply K2; exact Hj|].
    intros a c Ha Hc. rewrite Gd. apply K3.
    destruct (Nat.lt_ge_cases j i); [left|right]; nia.
Qed.

Lemma same_ground_truth_refl s : same_ground_truth s s.
Proof. constructor; reflexivity. Qed.


Ltac step_body := cbn -[py_setitem py_setitem3 py_touch nth_error].

(** One pass of the loop on arrays of the right shapes: what is written before
    each point where the pass may stop, and the exception it stops with. *)
Lemma update_weights_body_spec (newdyn : Phonons) (newT : R) (i : nat) s
    (st : Structure) :
  reweightable N_atoms s -> i < N s ->
  nth_error (structures s) i = Some st ->
  let out := body newdyn newT i s in
  touches_only i s (snd out)
  /\ match GetRatioProbability newdyn st newT (T0 s) (dyn_0 s) with
     | inl e => fst out = inl e /\ configuration_kept N_atoms s (snd out) i
     | inr r =>
         weight (snd out) i = r
         /\ match get_energy_forces newdyn st with
            | inl e => fst out = inl e
            | inr ef =>
                model_energy (snd out) i = fst ef
                /\ match Np.broadcast_to (snd ef) [N_atoms (dyn_0 s); 3] with
                   | None =>
                       fst out
                       = inl (ValueError "could not broadcast input array")
                   | Some xs =>
                       fst out
                       = py_touch "self.q[i]: list index out of range" (q s) i
                       /\ forall a c, a < N_atoms (dyn_0 s) -> c < 3 ->
                            model_force N_atoms (snd out) i a c
                            = nth (a * 3 + c) xs 0%R
                   end
            end
     end.
Proof.
  intros Hs Hi Hnth out. subst out.
  pose proof Hs as [Hst Hrho Hen Hfo].
  unfold update_weights_body, bind, lift, gets, modify, structure_at.
  rewrite Hnth. step_body.
  destruct (GetRatioProbability newdyn st newT (T0 s) (dyn_0 s)) as [e|r] eqn:ER.
  { step_body. split.
    - apply touches_only_intro; auto using same_ground_truth_refl.
    - split; [reflexivity|]. repeat split. }
  destruct (py_setitem_1d "self.rho[i]: index out of range" _ _ i r Hrho Hi)
    as (rho1 & E1 & A1 & V1 & K1).
  rewrite E1. step_body. rewrite Hnth. step_body.
  destruct (get_energy_forces newdyn st) as [e|ef] eqn:EF.
  { step_body. split.
    - apply touches_only_intro; auto; constructor; reflexivity.
    - split; [exact V1 | reflexivity]. }
  step_body.
  destruct (py_setitem_1d "self.sscha_energies[i]: index out of range" _ _ i
              (fst ef) Hen Hi) as (en1 & E2 & A2 & V2 & K2).
  rewrite E2. step_body.
  destruct (Np.broadcast_to (snd ef) [N_atoms (dyn_0 s); 3]) as [xs|] eqn:B.
  - destruct (py_setitem3_3d _ _ _ _ i _ xs Hfo Hi B)
      as (f1 & E3 & A3 & V3 & K3).
    rewrite E3. step_body. split.
    + apply touches_only_intro; auto; constructor; reflexivity.
    + split; [exact V1|]. split; [exact V2|]. split; [reflexivity|].
      intros a c Ha Hc. unfold model_force. step_body.
      replace ((i * N_atoms (dyn_0 s) + a) * 3 + c)
        with (i * (N_atoms (dyn_0 s) * 3) + (a * 3 + c)) by lia.
      apply V3. nia.
  - rewrite (py_setitem3_no_fit _ _ _ _ i _ Hfo Hi B). step_body. split.
    + apply touches_only_intro; auto; constructor; reflexivity.
    + split; [exact V1|]. split; [exact V2|]. reflexivity.
Qed.



Lemma configuration_kept_refl s i : configuration_kept N_atoms s s i.
Proof. repeat split. Qed.

Lemma configuration_kept_trans s0 s s' i :
  dyn_0 s = dyn_0 s0 ->
  configuration_kept N_atoms s0 s i -> configuration_kept N_atoms s s' i ->
  configuration_kept N_atoms s0 s' i.
Proof.
  intros Hd (A1 & A2 & A3) (B1 & B2 & B3).
  split; [congruence|]. split; [congruence|].
  intros a c Ha Hc. rewrite B3 by (rewrite ?Hd; assumption). apply A3; assumption.
Qed.

Lemma same_ground_truth_trans s0 s s' :
  same_ground_truth s0 s -> same_ground_truth s s' -> same_ground_truth s0 s'.
Proof.
  intros [] []. constructor; congruence.
Qed.

Lemma for_each_cons (i : nat) (l : list nat) (f : nat -> M Structure Phonons unit) s :
  for_each (i :: l) f s
  = match f i s with
    | (inl e, s') => (inl e, s')
    | (inr _, s') => for_each l f s'
    end.
Proof. reflexivity. Qed.

(** The loop from configuration [k] on: it stops in a pass [j], having
    reweighted every configuration below [j] and kept every one above. *)
Lemma update_weights_loop_spec (newdyn : Phonons) (newT : R) s0 (m : nat) :
  forall k s,
    k + m = N s0 ->
    passes_done newdyn newT k s0 s ->
    let out := for_each (seq k m) (body newdyn newT) s in
    exists j,
      k <= j <= k + m
      /\ same_ground_truth s0 (snd out)
      /\ current_T (snd out) = current_T s0
      /\ current_dyn (snd out) = current_dyn s0
      /\ (forall i, i < j -> reweighted_at newdyn newT s0 (snd out) i)
      /\ (forall i, j < i -> configuration_kept N_atoms s0 (snd out) i)
      /\ (fst out = ok tt -> j = k + m)
      /\ (forall e, fst out = inl e ->
            j < k + m /\ exists sj,
              passes_done newdyn newT j s0 sj
              /\ body newdyn newT j sj = (inl e, snd out)).
Proof.
  induction m as [|m IH]; intros k s Hk [G HT Hd Hs Hb Ha] out; subst out.
  - cbn [seq for_each]. unfold ret. cbn [fst snd]. exists k.
    split; [lia|]. split; [exact G|]. split; [exact HT|]. split; [exact Hd|].
    split; [exact Hb|]. split; [intros i Hi; apply Ha; lia|].
    split; [intros _; lia|]. intros e H. discriminate.
  - cbn [seq]. rewrite for_each_cons.
    assert (Hk' : k < N s) by (rewrite (same_N _ _ G); lia).
    destruct (nth_error (structures s) k) as [st|] eqn:Hnth.
    2:{ apply nth_error_None in Hnth.
        rewrite (reweightable_structures _ _ Hs) in Hnth. lia. }
    pose proof (update_weights_body_spec newdyn newT k s st Hs Hk' Hnth) as Hspec.
    cbv zeta in Hspec. destruct Hspec as ([G' HT' Hd' Hs' Ho'] & Hres).
    assert (Hd0 : dyn_0 s = dyn_0 s0) by (apply (same_dyn_0 _ _ G)).
    assert (HT0 : T0 s = T0 s0) by (apply (same_T0 _ _ G)).
    assert (Hstr : structures s = structures s0) by (apply (same_structures _ _ G)).
    destruct (body newdyn newT k s) as [[e|u] s'] eqn:Eb; cbn [fst snd] in *.
    + exists k. split; [lia|].
      split; [eapply same_ground_truth_trans; eassumption|].
      split; [congruence|]. split; [congruence|].
      split.
      { intros i Hi. destruct (Hb i Hi) as (sti & ef & H1 & H2 & H3 & H4).
        destruct (Ho' i ltac:(lia)) as (W & E & _).
        exists sti, ef. rewrite W, E. auto. }
      split.
      { intros i Hi. eapply configuration_kept_trans; [exact Hd0| |].
        - apply Ha. lia.
        - apply Ho'. lia. }
      split; [intros H; discriminate|].
      intros e' H. injection H as <-. split; [lia|].
      exists s. split; [constructor; assumption|]. exact Eb.
    + assert (Hdone : passes_done newdyn newT (S k) s0 s').
      { constructor.
        - eapply same_ground_truth_trans; eassumption.
        - congruence.
        - congruence.
        - exact Hs'.
        - intros i Hi. destruct (Nat.eq_dec i k) as [->|Hne].
          + rewrite Hd0, HT0 in Hres.
            destruct (GetRatioProbability newdyn st newT (T0 s0) (dyn_0 s0))
              as [e|r] eqn:ER; [destruct Hres as [H _]; discriminate|].
            destruct Hres as (W & Hres).
            destruct (get_energy_forces newdyn st) as [e|ef] eqn:EF;
              [discriminate|].
            destruct Hres as (E & _).
            exists st, ef. rewrite <- Hstr, W, E. auto.
          + destruct (Hb i ltac:(lia)) as (sti & ef & H1 & H2 & H3 & H4).
            destruct (Ho' i Hne) as (W & E & _).
            exists sti, ef. rewrite W, E. auto.
        - intros i Hi. eapply configuration_kept_trans; [exact Hd0| |].
          + apply Ha. lia.
          + apply Ho'. lia. }
      destruct (IH (S k) s' ltac:(lia) Hdone)
        as (j & Hj & R1 & R2 & R3 & R4 & R5 & R6 & R7).
      exists j. split; [lia|]. split; [exact R1|]. split; [exact R2|].
      split; [exact R3|]. split; [exact R4|]. split; [exact R5|].
      split; [intros H; rewrite (R6 H); lia|].
      intros e H. destruct (R7 e H) as (Hlt & sj & Hsj & Hbj).
      split; [lia|]. exists sj. auto.
Qed.


Lemma update_weights_unfold (newdyn : Phonons) (newT : R) s :
  update_weights_ newdyn newT s
  = match for_each (seq 0 (N s)) (body newdyn newT) (set_current_T newT s) with
    | (inl e, s') => (inl e, s')
    | (inr _, s') => (ok tt, set_current_dyn newdyn s')
    end.
Proof.
  unfold update_weights, bind, modify, gets, for_range, ok.
  cbn [N set_current_T].
  destruct (for_each _ _ _) as [[e|u] s']; reflexivity.
Qed.

Lemma passes_done_start (newdyn : Phonons) (newT : R) s :
  reweightable N_atoms s ->
  passes_done newdyn newT 0 (set_current_T newT s) (set_current_T newT s).
Proof.
  intros [H1 H2 H3 H4]. constructor; try reflexivity.
  - constructor; reflexivity.
  - constructor; assumption.
  - intros i Hi. lia.
  - intros i _. apply configuration_kept_refl.
Qed.

(** C1, as amended. Reweighting is not atomic. When the adapter raises for a
    configuration [k], the call fails as a whole, and the current model and
    the ground-truth data are as before the call; but the current temperature
    is already the new one. The call stops in a pass [j <= k]: the state [sj]
    at the start of that pass holds the new weight and model energy of every
    configuration below [j] and the prior data of the others, pass [j] raises
    from it the exception of the call, and the state it leaves is the state
    after the call, in which every configuration below [j] is reweighted and
    every configuration above [j] is kept. When every pass below [k] runs to
    its end, [j] is [k] and the exception is the adapter's: raised by the
    ratio, with configuration [k] kept, or raised by the energy and force
    prediction, with the ratio of configuration [k] already stored as its
    weight. Nothing is staged or rolled back, and a returned ratio is stored
    as it is. *)
Theorem reweighting_not_atomic (newdyn : Phonons) (newT : R) s (k : nat)
    (st : Structure) :
  reweightable N_atoms s ->
  nth_error (structures s) k = Some st ->
  (exists e, GetRatioProbability newdyn st newT (T0 s) (dyn_0 s) = inl e)
  \/ (exists e, get_energy_forces newdyn st = inl e) ->
  let out := update_weights_ newdyn newT s in
  exists e j sj,
    fst out = inl e
    /\ j <= k
    /\ passes_done newdyn newT j (set_current_T newT s) sj
    /\ body newdyn newT j sj = (inl e, snd out)
    /\ same_ground_truth s (snd out)
    /\ current_dyn (snd out) = current_dyn s
    /\ current_T (snd out) = newT
    /\ (forall i, i < j -> reweighted_at newdyn newT s (snd out) i)
    /\ (forall i, j < i -> configuration_kept N_atoms s (snd out) i)
    /\ ((forall i, i < k -> pass_completes newdyn newT s i) ->
          j = k
          /\ ((GetRatioProbability newdyn st newT (T0 s) (dyn_0 s) = inl e
               /\ configuration_kept N_atoms s (snd out) k)
              \/ (exists r,
                    GetRatioProbability newdyn st newT (T0 s) (dyn_0 s) = ok r
                    /\ get_energy_forces newdyn st = inl e
                    /\ weight (snd out) k = r))).
Proof.
  intros Hs Hnth Hraise out. subst out.
  assert (Hk : k < N s).
  { rewrite <- (reweightable_structures _ _ Hs). apply nth_error_Some. congruence. }
  rewrite update_weights_unfold.
  pose proof (update_weights_loop_spec newdyn newT (set_current_T newT s) (N s)
                0 (set_current_T newT s) eq_refl (passes_done_start newdyn newT s Hs))
    as (j & Hj & G & HT & Hd & Hb & Ha & Hok & Herr).
  cbv zeta in *.
  assert (Hjk : j <= k).
  { destruct (Nat.le_gt_cases j k) as [H|H]; [exact H|]. exfalso.
    destruct (Hb k H) as (st' & ef & H1 & H2 & H3 & _).
    cbn [structures T0 dyn_0 set_current_T] in H1, H2.
    rewrite Hnth in H1. injection H1 as <-. unfold ok in *.
    destruct Hraise as [[e He]|[e He]]; congruence. }
  destruct (for_each _ _ _) as [[e|u] s'] eqn:El; cbn [fst snd] in *.
  2:{ exfalso. specialize (Hok ltac:(destruct u; reflexivity)). lia. }
  destruct (Herr e eq_refl) as (HjN & sj & Hsj & Hbj).
  exists e, j, sj. split; [reflexivity|]. split; [exact Hjk|].
  split; [exact Hsj|]. split; [exact Hbj|].
  split; [destruct G; constructor; assumption|].
  split; [exact Hd|]. split; [exact HT|].
  split; [exact Hb|]. split; [exact Ha|].
  intros Hcomp.
  pose proof Hsj as [Gj _ _ Hsh _ Habove].
  pose proof Gj as [GN Gstr _ _ _ Gd GT Gq].
  cbn [N structures dyn_0 T0 q set_current_T] in GN, Gstr, Gd, GT, Gq.
  assert (Hjk' : j = k).
  { destruct (Nat.eq_dec j k) as [H|H]; [exact H|]. exfalso.
    destruct (Hcomp j ltac:(lia)) as (stj & r & ef & xs & C1 & C2 & C3 & C4 & C5).
    pose proof (update_weights_body_spec newdyn newT j sj stj Hsh
                  ltac:(rewrite GN; lia) ltac:(rewrite Gstr; exact C1)) as Hspec.
    cbv zeta in Hspec. rewrite Hbj in Hspec. cbn [fst snd] in Hspec.
    rewrite GT, Gd, Gq in Hspec. unfold ok in C2, C3.
    rewrite C2, C3, C4, C5 in Hspec.
    destruct Hspec as (_ & _ & _ & Hf & _). discriminate. }
  split; [exact Hjk'|]. subst j.
  pose proof (update_weights_body_spec newdyn newT k sj st Hsh
                ltac:(rewrite GN; exact Hk) ltac:(rewrite Gstr; exact Hnth))
    as Hspec.
  cbv zeta in Hspec. rewrite Hbj in Hspec. cbn [fst snd] in Hspec.
  rewrite GT, Gd in Hspec. destruct Hspec as (_ & Hres).
  destruct (GetRatioProbability newdyn st newT (T0 s) (dyn_0 s)) as [e'|r] eqn:ER.
  - destruct Hres as (He & Hkept). injection He as ->. left.
    split; [reflexivity|].
    apply (configuration_kept_trans (set_current_T newT s) sj s' k Gd);
      [apply Habove; lia | exact Hkept].
  - destruct Hres as (W & Hres). right. exists r. split; [reflexivity|].
    destruct (get_energy_forces newdyn st) as [e'|ef] eqn:EF.
    + injection Hres as ->. split; [reflexivity | exact W].
    + exfalso. destruct Hraise as [[e0 He0]|[e0 He0]]; discriminate.
Qed.


(** The first pass on an ensemble whose [q] is the empty list of the
    constructor, when the adapter returns for the first configuration: the
    pass writes the weight and the model predictions of that configuration
    and stops at the expression statement [self.q[i]]. *)
Lemma first_pass_stops_at_q (newdyn : Phonons) (newT : R) s (st : Structure)
    (r : R) (ef : R * Np.ndarray) (xs : list R) :
  reweightable N_atoms s ->
  1 <= N s ->
  q s = PyList [] ->
  nth_error (structures s) 0 = Some st ->
  GetRatioProbability newdyn st newT (T0 s) (dyn_0 s) = ok r ->
  get_energy_forces newdyn st = ok ef ->
  Np.broadcast_to (snd ef) [N_atoms (dyn_0 s); 3] = Some xs ->
  let out := update_weights_ newdyn newT s in
  fst out = inl q_index_error
  /\ current_T (snd out) = newT
  /\ current_dyn (snd out) = current_dyn s
  /\ same_ground_truth s (snd out)
  /\ weight (snd out) 0 = r
  /\ model_energy (snd out) 0 = fst ef
  /\ (forall a c, a < N_atoms (dyn_0 s) -> c < 3 ->
        model_force N_atoms (snd out) 0 a c = nth (a * 3 + c) xs 0%R)
  /\ (forall i, 0 < i -> configuration_kept N_atoms s (snd out) i).
Proof.
  intros Hs HN Hq Hnth Hr Hef Hb out. subst out.
  rewrite update_weights_unfold.
  destruct (N s) as [|m] eqn:EN; [lia|]. cbn [seq]. rewrite for_each_cons.
  set (s1 := set_current_T newT s).
  assert (Hs1 : reweightable N_atoms s1).
  { destruct Hs. constructor; assumption. }
  assert (Hi : 0 < N s1) by (change (N s1) with (N s); lia).
  pose proof (update_weights_body_spec newdyn newT 0 s1 st Hs1 Hi Hnth) as Hspec.
  cbv zeta in Hspec.
  change (T0 s1) with (T0 s) in Hspec. change (dyn_0 s1) with (dyn_0 s) in Hspec.
  change (q s1) with (q s) in Hspec.
  unfold ok in Hr, Hef. rewrite Hr, Hef, Hb, Hq in Hspec.
  destruct Hspec as ([G HT Hd _ Ho] & W & E & Hfst & F).
  destruct (body newdyn newT 0 s1) as [[e|u] s'] eqn:Eb; cbn [fst snd] in *.
  - split; [exact Hfst|]. split; [exact HT|]. split; [exact Hd|].
    split; [destruct G; constructor; assumption|].
    split; [exact W|]. split; [exact E|]. split; [exact F|].
    intros i Hi'. apply (Ho i). lia.
  - discriminate.
Qed.

End Reweighting.

(** ** The normal-mode cache [q] *)

Section QCache.

Context {Structure Phonons : Type}.
Variable N_atoms : Phonons -> nat.
Variable alat : Phonons -> R.
Variable get_energy_forces : Phonons -> Structure -> result (R * Np.ndarray).
Variable GetRatioProbability :
  Phonons -> Structure -> R -> R -> Phonons -> result R.
Variable read_scf : string -> R -> result Structure.
Variable with_unit_cell : Structure -> Phonons -> Structure.
Variable isdir : string -> bool.
Variable loadtxt : string -> result Np.ndarray.
Implicit Types s : Ensemble Structure Phonons.

Lemma for_each_preserves {A : Type} (proj : Ensemble Structure Phonons -> A)
    (f : nat -> M Structure Phonons unit) (l : list nat) :
  (forall i s, proj (snd (f i s)) = proj s) ->
  forall s, proj (snd (for_each l f s)) = proj s.
Proof.
  intros Hf. induction l as [|i l IH]; intros s.
  - reflexivity.
  - rewrite for_each_cons. specialize (Hf i s).
    destruct (f i s) as [[e|u] s']; cbn [fst snd] in *.
    + exact Hf.
    + rewrite IH. exact Hf.
Qed.

Lemma update_weights_body_keeps_q (newdyn : Phonons) (newT : R) (i : nat) s :
  q (snd (update_weights_body get_energy_forces GetRatioProbability
            newdyn newT i s)) = q s.
Proof.
  unfold update_weights_body, bind, lift, gets, modify, structure_at.
  destruct (nth_error (structures s) i) as [st|]; [|reflexivity].
  cbn -[py_setitem py_setitem3 py_touch nth_error].
  destruct (GetRatioProbability _ _ _ _ _); [reflexivity|].
  destruct (py_setitem _ (rho s) i _); [reflexivity|].
  cbn -[py_setitem py_setitem3 py_touch nth_error].
  destruct (nth_error (structures s) i) as [st'|]; [|reflexivity].
  cbn -[py_setitem py_setitem3 py_touch nth_error].
  destruct (get_energy_forces _ _); [reflexivity|].
  cbn -[py_setitem py_setitem3 py_touch nth_error].
  destruct (py_setitem _ (sscha_energies s) i _); [reflexivity|].
  cbn -[py_setitem py_setitem3 py_touch nth_error].
  destruct (py_setitem3 (sscha_forces s) i _); reflexivity.
Qed.

Lemma load_body_keeps_q (dir : string) (population : Z) (i : nat) s :
  q (snd (load_body alat get_energy_forces read_scf with_unit_cell loadtxt
            dir population i s)) = q s.
Proof.
  unfold load_body, bind, lift, gets, modify.
  cbn -[py_setitem py_setitem3 per_config_path].
  destruct (read_scf _ _); [reflexivity|].
  cbn -[py_setitem py_setitem3 per_config_path].
  destruct (loadtxt _); [reflexivity|].
  cbn -[py_setitem py_setitem3 per_config_path].
  destruct (py_setitem3 (forces s) i _); [reflexivity|].
  cbn -[py_setitem py_setitem3 per_config_path].
  destruct (loadtxt _); [reflexivity|].
  cbn -[py_setitem py_setitem3 per_config_path].
  destruct (py_setitem3 (stresses s) i _); [reflexivity|].
  cbn -[py_setitem py_setitem3 per_config_path].
  destruct (get_energy_forces _ _); [reflexivity|].
  cbn -[py_setitem py_setitem3 per_config_path].
  destruct (py_setitem _ (sscha_energies s) i _); [reflexivity|].
  cbn -[py_setitem py_setitem3 per_config_path].
  destruct (py_setitem3 (sscha_forces s) i _); reflexivity.
Qed.

(** No operation of the class assigns [q]: the constructor binds it to the
    empty list, and [load] and [update_weights] leave it as it is. *)
Lemma q_never_populated :
  (forall (dyn0 : Phonons) (T : R),
     q (init (Structure := Structure) dyn0 T) = PyList [])
  /\ (forall data_dir population n s,
        q (snd (load N_atoms alat get_energy_forces read_scf with_unit_cell
                  isdir loadtxt data_dir population n s)) = q s)
  /\ (forall newdyn newT s,
        q (snd (update_weights get_energy_forces GetRatioProbability
                  newdyn newT s)) = q s).
Proof.
  split; [reflexivity|]. split.
  - intros data_dir population n s. unfold load.
    destruct (isdir data_dir); [|reflexivity]. cbn [negb].
    unfold bind at 1. unfold lift at 1.
    destruct (strip_slash data_dir) as [e|dir]; [reflexivity|].
    unfold bind, modify, gets, for_range.
    cbn -[for_each load_body energies_path].
    set (s1 := set_sscha_energies _ _).
    pose proof (for_each_preserves q
                  (load_body alat get_energy_forces read_scf with_unit_cell
                     loadtxt dir population)
                  (seq 0 n) (load_body_keeps_q dir population) s1) as H.
    destruct (for_each _ _ s1) as [[e|u] s2]; cbn [fst snd] in *.
    + exact H.
    + unfold lift. destruct (loadtxt _); cbn; exact H.
  - intros newdyn newT s. rewrite update_weights_unfold.
    pose proof (for_each_preserves q
                  (update_weights_body get_energy_forces GetRatioProbability
                     newdyn newT)
                  (seq 0 (N s)) (update_weights_body_keeps_q newdyn newT)
                  (set_current_T newT s)) as H.
    destruct (for_each _ _ _) as [[e|u] s']; cbn [fst snd] in *; exact H.
Qed.

End QCache.

Section QSlip.

Context {Structure Phonons : Type}.
Variable N_atoms : Phonons -> nat.
Variable get_energy_forces : Phonons -> Structure -> result (R * Np.ndarray).
Variable GetRatioProbability :
  Phonons -> Structure -> R -> R -> Phonons -> result R.
Implicit Types s : Ensemble Structure Phonons.

(** C10, as amended. On an ensemble with [N >= 1] whose per-configuration
    arrays are populated and whose [q] is the empty list of the constructor,
    a call to [update_weights] for which the adapter returns on the first
    configuration a ratio and a prediction whose forces can be assigned to a
    block of [N_atoms] rows of three raises the index error of [self.q[i]]
    in the first pass:
    by then the current temperature, the first weight and the first model
    energy and forces are overwritten, the other configurations and the
    current model are as before, and [q] is still empty. *)
Theorem update_weights_stops_at_q (newdyn : Phonons) (newT : R) s
    (st : Structure) (r : R) (ef : R * Np.ndarray) (xs : list R) :
  reweightable N_atoms s ->
  1 <= N s ->
  q s = PyList [] ->
  nth_error (structures s) 0 = Some st ->
  GetRatioProbability newdyn st newT (T0 s) (dyn_0 s) = ok r ->
  get_energy_forces newdyn st = ok ef ->
  Np.broadcast_to (snd ef) [N_atoms (dyn_0 s); 3] = Some xs ->
  let out := update_weights get_energy_forces GetRatioProbability newdyn newT s in
  fst out = inl q_index_error
  /\ current_T (snd out) = newT
  /\ weight (snd out) 0 = r
  /\ model_energy (snd out) 0 = fst ef
  /\ (forall a c, a < N_atoms (dyn_0 s) -> c < 3 ->
        model_force N_atoms (snd out) 0 a c = nth (a * 3 + c) xs 0%R)
  /\ (forall i, 0 < i -> configuration_kept N_atoms s (snd out) i)
  /\ current_dyn (snd out) = current_dyn s
  /\ q (snd out) = PyList [].
Proof.
  intros Hs HN Hq Hnth Hr Hef Hb out.
  destruct (first_pass_stops_at_q N_atoms get_energy_forces GetRatioProbability
              newdyn newT s st r ef xs Hs HN Hq Hnth Hr Hef Hb)
    as (H1 & H2 & H3 & H4 & H5 & H6 & H7 & H8).
  fold out in H1, H2, H3, H4, H5, H6, H7, H8.
  repeat (split; [assumption|]).
  rewrite (same_q _ _ H4). exact Hq.
Qed.

End QSlip.

Lemma two_configurations_reweightable :
  reweightable Example.N_atoms Example.two_configurations.
Proof.
  constructor; try reflexivity; eexists; split; reflexivity.
Qed.

Lemma update_weights_stops_at_q_witness :
  let out :=
    update_weights Example.get_energy_forces Example.GetRatioProbability
      1 1%R Example.two_configurations in
  fst out = inl q_index_error
  /\ current_T (snd out) = 1%R
  /\ weight (snd out) 0 = 1%R
  /\ model_energy (snd out) 0 = 0%R
  /\ (forall a c, a < 1 -> c < 3 ->
        model_force Example.N_atoms (snd out) 0 a c
        = nth (a * 3 + c) [0%R; 0%R; 0%R] 0%R)
  /\ (forall i, 0 < i ->
        configuration_kept Example.N_atoms Example.two_configurations (snd out) i)
  /\ current_dyn (snd out) = 0
  /\ q (snd out) = PyList [].
Proof.
  apply (update_weights_stops_at_q Example.N_atoms Example.get_energy_forces
           Example.GetRatioProbability 1 1%R Example.two_configurations
           0 1%R (0%R, Np.mkarr [1; 3] [0%R; 0%R; 0%R]) [0%R; 0%R; 0%R]).
  - exact two_configurations_reweightable.
  - simpl. lia.
  - reflexivity.
  - reflexivity.
  - reflexivity.
  - reflexivity.
  - reflexivity.
Defined.

(** C10, the claim as stated fails on the ensembles that the class itself
    produces: [load] with [N = 1] leaves [N = 1] and an empty list of
    structures, and [update_weights] then stops at [self.structures[i]],
    before any weight or model prediction is written. *)
Lemma update_weights_after_load_stops_at_structures :
  let s :=
    snd (load Example.N_atoms Example.alat Example.get_energy_forces
           Example.read_scf Example.with_unit_cell Example.isdir
           Example.loadtxt "data" 1 1 Example.fresh) in
  let out :=
    update_weights Example.get_energy_forces Example.GetRatioProbability
      1 1%R s in
  N s = 1
  /\ q s = PyList []
  /\ fst out = inl structures_index_error
  /\ fst out <> inl q_index_error
  /\ rho s = PyList []
  /\ rho (snd out) = PyList []
  /\ sscha_forces (snd out) = PyList [].
Proof.
  cbv zeta.
  assert (E : fst (update_weights Example.get_energy_forces
                     Example.GetRatioProbability 1 1%R
                     (snd (load Example.N_atoms Example.alat
                             Example.get_energy_forces Example.read_scf
                             Example.with_unit_cell Example.isdir
                             Example.loadtxt "data" 1 1 Example.fresh)))
              = inl structures_index_error) by reflexivity.
  split; [reflexivity|]. split; [reflexivity|]. split; [exact E|].
  split; [rewrite E; discriminate|].
  split; [reflexivity|]. split; reflexivity.
Qed.

Lemma with_q_cache_reweightable :
  reweightable Example.N_atoms Example.with_q_cache.
Proof.
  constructor; try reflexivity; eexists; split; reflexivity.
Qed.

Lemma reweighting_not_atomic_witness :
  let s := Example.with_q_cache in
  let out :=
    update_weights Example.raising_on_second Example.ratio_two 1 1%R s in
  exists e j sj,
    fst out = inl e
    /\ j = 1
    /\ passes_done Example.N_atoms Example.raising_on_second Example.ratio_two
         1 1%R j (set_current_T 1%R s) sj
    /\ update_weights_body Example.raising_on_second Example.ratio_two
         1 1%R j sj = (inl e, snd out)
    /\ same_ground_truth s (snd out)
    /\ current_dyn (snd out) = 0
    /\ current_T (snd out) = 1%R
    /\ (forall i, i < j ->
          reweighted_at Example.raising_on_second Example.ratio_two
            1 1%R s (snd out) i)
    /\ (forall i, j < i ->
          configuration_kept Example.N_atoms s (snd out) i)
    /\ Example.raising_on_second 1 1 = inl e
    /\ weight (snd out) 1 = 2%R.
Proof.
  cbv zeta.
  destruct (reweighting_not_atomic Example.N_atoms Example.raising_on_second
              Example.ratio_two 1 1%R Example.with_q_cache 1 1
              with_q_cache_reweightable eq_refl
              (or_intror (ex_intro _ (External 7) eq_refl)))
    as (e & j & sj & H1 & H2 & H3 & H4 & H5 & H6 & H7 & H8 & H9 & H10).
  assert (Hcomp : forall i, i < 1 ->
            pass_completes Example.N_atoms Example.raising_on_second
              Example.ratio_two 1 1%R Example.with_q_cache i).
  { intros i Hi. assert (i = 0) as -> by lia.
    exists 0, 2%R, (0%R, Np.mkarr [1; 3] [0%R; 0%R; 0%R]), [0%R; 0%R; 0%R].
    repeat split. }
  destruct (H10 Hcomp) as (Hj & [(Hr & _)|(r & Hr & He & Hw)]).
  - discriminate Hr.
  - injection Hr as <-.
    exists e, j, sj.
    split; [exact H1|]. split; [exact Hj|]. split; [exact H3|].
    split; [exact H4|]. split; [exact H5|]. split; [exact H6|].
    split; [exact H7|]. split; [exact H8|]. split; [exact H9|].
    split; [exact He | exact Hw].
Defined.

(** C1, the claim as stated fails: the model raises for the first
    configuration after its probability ratio 2 has been stored; the call
    fails, and the temperature and the first weight are not the prior ones. *)
Lemma reweighting_leaves_partial_state :
  let s := Example.two_configurations in
  let out :=
    update_weights Example.raising_energy_forces Example.ratio_two 1 1%R s in
  Example.raising_energy_forces 1 0 = inl (External 7)
  /\ fst out = inl (External 7)
  /\ current_T s = 0%R /\ current_T (snd out) = 1%R
  /\ weight s 0 = 1%R /\ weight (snd out) 0 = 2%R
  /\ ~ (current_T (snd out) = current_T s /\ rho (snd out) = rho s).
Proof.
  cbv zeta.
  split; [reflexivity|]. split; [reflexivity|]. split; [reflexivity|].
  split; [reflexivity|]. split; [reflexivity|]. split; [reflexivity|].
  intros [H _]. change (1%R = 0%R) in H. lra.
Qed.

(** With a [q] of two entries the first pass completes, and a model that
    raises for the second configuration leaves the first one reweighted:
    weight 2 instead of 1, model forces 0 instead of 1. *)
Lemma reweighting_stops_in_second_pass :
  let s := Example.with_q_cache in
  let out :=
    update_weights Example.raising_on_second Example.ratio_two 1 1%R s in
  fst out = inl (External 7)
  /\ current_T (snd out) = 1%R
  /\ current_dyn (snd out) = current_dyn s
  /\ weight (snd out) 0 = 2%R /\ weight s 0 = 1%R
  /\ model_force Example.N_atoms (snd out) 0 0 0 = 0%R
  /\ model_force Example.N_atoms s 0 0 0 = 1%R
  /\ weight (snd out) 1 = 2%R
  /\ model_energy (snd out) 1 = model_energy s 1.
Proof.
  cbv zeta. repeat split; reflexivity.
Qed.

(** With a [q] of two entries, reweighting with the original model and
    temperature returns, every weight is 1 and the effective sample size is
    the number of configurations. *)
Lemma identity_reweighting_with_q_cache :
  let s := Example.with_q_cache in
  let out :=
    update_weights Example.get_energy_forces Example.GetRatioProbability
      (dyn_0 s) (T0 s) s in
  fst out = ok tt
  /\ weight (snd out) 0 = 1%R /\ weight (snd out) 1 = 1%R
  /\ get_effective_sample_size (snd out) = ok (INR 2).
Proof.
  cbv zeta. split; [reflexivity|]. split; [reflexivity|].
  split; [reflexivity|].
  unfold get_effective_sample_size. cbn. unfold ok. f_equal.
  unfold py_sum, Np.sum. cbn. field.
Qed.

(** C2, evaluated on the two-configuration ensemble: reweighting with the
    original model and temperature, for which the probability ratio is 1,
    does not return; it raises the index error of [self.q[i]] in the first
    pass, after the first weight has been set to 1. *)
Theorem identity_reweighting_raises :
  let s := Example.two_configurations in
  let out :=
    update_weights Example.get_energy_forces Example.GetRatioProbability
      (dyn_0 s) (T0 s) s in
  loaded Example.N_atoms s
  /\ (forall st, Example.GetRatioProbability (dyn_0 s) st (T0 s) (T0 s) (dyn_0 s)
                 = ok 1%R)
  /\ fst out = inl q_index_error
  /\ fst out <> ok tt
  /\ weight (snd out) 0 = 1%R.
Proof.
  cbv zeta.
  split; [exact two_configurations_loaded|].
  split; [reflexivity|].
  assert (E : fst (update_weights Example.get_energy_forces
                     Example.GetRatioProbability
                     (dyn_0 Example.two_configurations)
                     (T0 Example.two_configurations)
                     Example.two_configurations) = inl q_index_error)
    by reflexivity.
  split; [exact E|]. split; [rewrite E; discriminate | reflexivity].
Qed.

(** ** The average force *)

(** C8, evaluated. With one configuration of one atom, weight 2 and residual
    force [(1, 2, 3)], the per-component averages of the claim are 2, 4 and
    6, while [get_average_forces] returns the single number 36: the weights
    are tiled along the last axis, which is the Cartesian one in the forces,
    and [np.sum] adds every entry of the broadcast product. With two
    configurations of one atom the product cannot be broadcast and the call
    raises. *)
Theorem average_forces_is_one_number :
  loaded Example.N_atoms Example.one_configuration
  /\ get_average_forces Example.N_atoms Example.one_configuration = ok 36%R
  /\ average_force_entry Example.N_atoms Example.one_configuration 0 0 = 2%R
  /\ average_force_entry Example.N_atoms Example.one_configuration 0 1 = 4%R
  /\ average_force_entry Example.N_atoms Example.one_configuration 0 2 = 6%R
  /\ loaded Example.N_atoms Example.two_configurations
  /\ get_average_forces Example.N_atoms Example.two_configurations
     = inl (ValueError "operands could not be broadcast together").
Proof.
  split.
  { constructor; try reflexivity; eexists; split; reflexivity. }
  split.
  { unfold get_average_forces. cbn. unfold ok. f_equal.
    unfold Np.sum, Rsum. cbn. field. }
  split; [unfold average_force_entry, Rsum_over, weight, force, model_force; cbn; field|].
  split; [unfold average_force_entry, Rsum_over, weight, force, model_force; cbn; field|].
  split; [unfold average_force_entry, Rsum_over, weight, force, model_force; cbn; field|].
  split; [exact two_configurations_loaded | reflexivity].
Qed.

(** ** The free-energy gradient: rescaled weights *)

Local Open Scope R_scope.

Lemma bget_map_arr (h : R -> R) (a : Np.ndarray) (rs : list nat) (k : nat) :
  h 0 = 0 -> Np.bget (Np.map_arr h a) rs k = h (Np.bget a rs k).
Proof.
  intros H0. unfold Np.bget, Np.map_arr. cbn [Np.shape Np.data].
  rewrite <- H0 at 1. apply map_nth.
Qed.

Lemma py_sum_scale (lambda : R) (v : pyobj) :
  py_sum (py_scale lambda v) = lambda * py_sum v.
Proof.
  unfold py_sum, Np.sum.
  destruct v as [l|a]; cbn [py_scale asarray Np.data Np.map_arr].
  - rewrite <- (map_id l) at 2. apply Rsum_map_scal.
  - rewrite <- (map_id (Np.data a)) at 2. apply Rsum_map_scal.
Qed.


(** *** Extended reals under a positive factor *)











Section GradientScale.

Context {Structure Phonons : Type}.
Variable N_atoms : Phonons -> nat.
Variable atom : Phonons -> list string.
Variable masses : Phonons -> list (string * R).
Variable dynmat_shape : Phonons -> list nat.
Variable DyagDinQ : Phonons -> nat -> result (list R * list (list R)).
Variable get_displacements : Structure -> Phonons -> result Np.ndarray.
Implicit Types s : Ensemble Structure Phonons.

Local Abbreviation gradient :=
  (get_free_energy_gradient_respect_to_dyn N_atoms atom masses dynmat_shape
     DyagDinQ get_displacements).




End GradientScale.


(** * Further properties of the code *)

Local Open Scope nat_scope.

(** ** What [update_weights] assigns, on any ensemble *)

Section ReweightingFrame.

Context {Structure Phonons : Type}.
Variable get_energy_forces : Phonons -> Structure -> result (R * Np.ndarray).
Variable GetRatioProbability :
  Phonons -> Structure -> R -> R -> Phonons -> result R.
Implicit Types s : Ensemble Structure Phonons.

(** The fields that the loop body never assigns, as one value. *)
Definition untouched_by_pass s :=
  (N s, structures s, energies s, forces s, stresses s, dyn_0 s, T0 s, q s,
   current_T s, current_dyn s).

Lemma update_weights_body_untouched (newdyn : Phonons) (newT : R) (i : nat) s :
  untouched_by_pass
    (snd (update_weights_body get_energy_forces GetRatioProbability
            newdyn newT i s))
  = untouched_by_pass s.
Proof.
  unfold update_weights_body, bind, lift, gets, modify, structure_at.
  destruct (nth_error (structures s) i) as [st|]; [|reflexivity].
  cbn -[py_setitem py_setitem3 py_touch nth_error].
  destruct (GetRatioProbability _ _ _ _ _); [reflexivity|].
  destruct (py_setitem _ (rho s) i _); [reflexivity|].
  cbn -[py_setitem py_setitem3 py_touch nth_error].
  destruct (nth_error (structures s) i) as [st'|]; [|reflexivity].
  cbn -[py_setitem py_setitem3 py_touch nth_error].
  destruct (get_energy_forces _ _); [reflexivity|].
  cbn -[py_setitem py_setitem3 py_touch nth_error].
  destruct (py_setitem _ (sscha_energies s) i _); [reflexivity|].
  cbn -[py_setitem py_setitem3 py_touch nth_error].
  destruct (py_setitem3 (sscha_forces s) i _); reflexivity.
Qed.

(** X1. Whatever the ensemble and whatever the adapter does, a call to
    [update_weights] never assigns the size, the structures, the ground-truth
    energies, forces and stresses, the original model and temperature, or
    [q]; it always leaves the new temperature in [current_T]; and it binds
    [current_dyn] to the new model exactly when it returns, keeping the old
    one when it raises. *)
Theorem update_weights_frame (newdyn : Phonons) (newT : R) s :
  let out := update_weights get_energy_forces GetRatioProbability newdyn newT s in
  same_ground_truth s (snd out)
  /\ current_T (snd out) = newT
  /\ (fst out = ok tt -> current_dyn (snd out) = newdyn)
  /\ (forall e, fst out = inl e -> current_dyn (snd out) = current_dyn s).
Proof.
  cbv zeta. rewrite update_weights_unfold.
  pose proof (for_each_preserves untouched_by_pass
                (update_weights_body get_energy_forces GetRatioProbability
                   newdyn newT)
                (seq 0 (N s))
                (update_weights_body_untouched newdyn newT)
                (set_current_T newT s)) as H.
  destruct (for_each _ _ _) as [[e|u] s']; cbn [fst snd] in *;
    unfold untouched_by_pass in H; cbn [N structures energies forces stresses
      dyn_0 T0 q current_T current_dyn set_current_T set_current_dyn] in *;
    injection H as H1 H2 H3 H4 H5 H6 H7 H8 H9 H10.
  - split; [constructor; assumption|]. split; [assumption|].
    split; [discriminate|]. intros _ _. assumption.
  - split; [constructor; assumption|]. split; [assumption|].
    split; [reflexivity|]. intros e H. discriminate.
Qed.

(** X2. On an ensemble of size 0, as the constructor leaves it, the loop of
    [update_weights] has no pass: the call returns, and the ensemble differs
    from the prior one in [current_T] and [current_dyn] only. *)
Theorem update_weights_empty (newdyn : Phonons) (newT : R) s :
  N s = 0 ->
  update_weights get_energy_forces GetRatioProbability newdyn newT s
  = (ok tt, set_current_dyn newdyn (set_current_T newT s)).
Proof.
  intros H. rewrite update_weights_unfold, H. reflexivity.
Qed.

End ReweightingFrame.

Lemma update_weights_empty_witness :
  update_weights Example.get_energy_forces Example.GetRatioProbability
    1 1%R Example.fresh
  = (ok tt, set_current_dyn 1 (set_current_T 1%R Example.fresh)).
Proof.
  apply (update_weights_empty Example.get_energy_forces
           Example.GetRatioProbability 1 1%R Example.fresh).
  reflexivity.
Defined.

(** ** Reweighting that returns *)

Section ReweightingReturns.

Context {Structure Phonons : Type}.
Variable N_atoms : Phonons -> nat.
Variable get_energy_forces : Phonons -> Structure -> result (R * Np.ndarray).
Variable GetRatioProbability :
  Phonons -> Structure -> R -> R -> Phonons -> result R.
Implicit Types s : Ensemble Structure Phonons.

(** X3. When the per-configuration arrays have [N] entries, [q] can be
    indexed by every configuration and the adapter returns, for every stored
    structure, a ratio and a prediction whose forces fit an
    [(N_atoms, 3)] block, [update_weights] returns: the current model and
    temperature are the new ones and every configuration carries the ratio
    and the model energy that the new model gives for it. *)
Theorem update_weights_returns (newdyn : Phonons) (newT : R) s :
  reweightable N_atoms s ->
  (forall i, i < N s ->
     py_touch "self.q[i]: list index out of range" (q s) i = ok tt) ->
  (forall i st, nth_error (structures s) i = Some st ->
     exists r ef xs,
       GetRatioProbability newdyn st newT (T0 s) (dyn_0 s) = ok r
       /\ get_energy_forces newdyn st = ok ef
       /\ Np.broadcast_to (snd ef) [N_atoms (dyn_0 s); 3] = Some xs) ->
  let out := update_weights get_energy_forces GetRatioProbability newdyn newT s in
  fst out = ok tt
  /\ current_dyn (snd out) = newdyn
  /\ current_T (snd out) = newT
  /\ forall i, i < N s ->
       reweighted_at get_energy_forces GetRatioProbability newdyn newT s
         (snd out) i.
Proof.
  intros Hs Hq Had out. subst out. rewrite update_weights_unfold.
  pose proof (update_weights_loop_spec N_atoms get_energy_forces
                GetRatioProbability newdyn newT (set_current_T newT s) (N s)
                0 (set_current_T newT s) eq_refl
                (passes_done_start N_atoms get_energy_forces
                   GetRatioProbability newdyn newT s Hs))
    as (j & Hj & G & HT & Hd & Hb & Ha & Hok & Herr).
  cbv zeta in *.
  destruct (for_each _ _ _) as [[e|u] s'] eqn:El; cbn [fst snd] in *.
  - exfalso. destruct (Herr e eq_refl) as (Hlt & sj & Hsj & Hbody).
    destruct Hsj as [Gj _ _ Hshj _ _].
    pose proof (same_N _ _ Gj) as HNj. cbn [N set_current_T] in HNj.
    pose proof (same_structures _ _ Gj) as Hstj.
    cbn [structures set_current_T] in Hstj.
    pose proof (same_q _ _ Gj) as Hqj. cbn [q set_current_T] in Hqj.
    pose proof (same_T0 _ _ Gj) as HT0j. cbn [T0 set_current_T] in HT0j.
    pose proof (same_dyn_0 _ _ Gj) as Hd0j. cbn [dyn_0 set_current_T] in Hd0j.
    destruct (nth_error (structures sj) j) as [st|] eqn:Hnth.
    2:{ apply nth_error_None in Hnth.
        rewrite (reweightable_structures _ _ Hshj) in Hnth. lia. }
    pose proof (update_weights_body_spec N_atoms get_energy_forces
                  GetRatioProbability newdyn newT j sj st Hshj
                  ltac:(lia) Hnth) as (_ & Hres).
    rewrite Hstj in Hnth.
    destruct (Had j st Hnth) as (r & ef & xs & Hr & Hef & Hfit).
    rewrite HT0j, Hd0j, Hqj in Hres. unfold ok in Hr, Hef.
    rewrite Hr, Hef, Hfit, Hbody in Hres.
    destruct Hres as (_ & _ & Hfst & _). cbn [fst] in Hfst.
    rewrite (Hq j ltac:(lia)) in Hfst. discriminate.
  - assert (Hu : inr u = ok tt :> result unit) by (destruct u; reflexivity).
    specialize (Hok Hu).
    split; [reflexivity|]. split; [reflexivity|]. split; [exact HT|].
    intros i Hi. apply (Hb i). lia.
Qed.

End ReweightingReturns.

Lemma update_weights_returns_witness :
  let out :=
    update_weights Example.get_energy_forces Example.GetRatioProbability
      1 1%R Example.with_q_cache in
  fst out = ok tt
  /\ current_dyn (snd out) = 1
  /\ current_T (snd out) = 1%R
  /\ forall i, i < 2 ->
       reweighted_at Example.get_energy_forces Example.GetRatioProbability
         1 1%R Example.with_q_cache (snd out) i.
Proof.
  apply (update_weights_returns Example.N_atoms Example.get_energy_forces
           Example.GetRatioProbability 1 1%R Example.with_q_cache).
  - constructor; try reflexivity; eexists; split; reflexivity.
  - intros [|[|i]] Hi; [reflexivity | reflexivity | simpl in Hi; lia].
  - intros i st _. exists 1%R, (0%R, Np.mkarr [1; 3] [0%R; 0%R; 0%R]),
                          [0%R; 0%R; 0%R].
    repeat split.
Defined.

(** ** What [load] assigns *)

Section LoadFrame.

Context {Structure Phonons : Type}.
Variable N_atoms : Phonons -> nat.
Variable alat : Phonons -> R.
Variable get_energy_forces : Phonons -> Structure -> result (R * Np.ndarray).
Variable read_scf : string -> R -> result Structure.
Variable with_unit_cell : Structure -> Phonons -> Structure.
Variable isdir : string -> bool.
Variable loadtxt : string -> result Np.ndarray.
Implicit Types s : Ensemble Structure Phonons.

Local Abbreviation load_ :=
  (load N_atoms alat get_energy_forces read_scf with_unit_cell isdir loadtxt).

(** The fields that the loop body of [load] never assigns, as one value. *)
Definition untouched_by_load_pass s :=
  (N s, structures s, energies s, dyn_0 s, T0 s, rho s, current_dyn s,
   current_T s, q s).

Lemma load_body_untouched (dir : string) (population : Z) (i : nat) s :
  untouched_by_load_pass
    (snd (load_body alat get_energy_forces read_scf with_unit_cell loadtxt
            dir population i s))
  = untouched_by_load_pass s.
Proof.
  unfold load_body, bind, lift, gets, modify.
  cbn -[py_setitem py_setitem3 per_config_path].
  destruct (read_scf _ _); [reflexivity|].
  cbn -[py_setitem py_setitem3 per_config_path].
  destruct (loadtxt _); [reflexivity|].
  cbn -[py_setitem py_setitem3 per_config_path].
  destruct (py_setitem3 (forces s) i _); [reflexivity|].
  cbn -[py_setitem py_setitem3 per_config_path].
  destruct (loadtxt _); [reflexivity|].
  cbn -[py_setitem py_setitem3 per_config_path].
  destruct (py_setitem3 (stresses s) i _); [reflexivity|].
  cbn -[py_setitem py_setitem3 per_config_path].
  destruct (get_energy_forces _ _); [reflexivity|].
  cbn -[py_setitem py_setitem3 per_config_path].
  destruct (py_setitem _ (sscha_energies s) i _); [reflexivity|].
  cbn -[py_setitem py_setitem3 per_config_path].
  destruct (py_setitem3 (sscha_forces s) i _); reflexivity.
Qed.

(** What [load] assigns and what it keeps, on any ensemble and any files. *)
Lemma load_assigns (data_dir : string) (population : Z) (n : nat) s :
  let out := load_ data_dir population n s in
  (structures (snd out) = structures s
   /\ dyn_0 (snd out) = dyn_0 s /\ T0 (snd out) = T0 s
   /\ current_dyn (snd out) = current_dyn s
   /\ current_T (snd out) = current_T s
   /\ q (snd out) = q s)
  /\ (isdir data_dir = false -> exists msg, out = (inl (IOError msg), s))
  /\ (forall dir, isdir data_dir = true -> strip_slash data_dir = ok dir ->
        N (snd out) = n)
  /\ (forall e, fst out = inl e ->
        rho (snd out) = rho s /\ energies (snd out) = energies s).
Proof.
  cbv zeta. unfold load.
  destruct (isdir data_dir) eqn:Hdir; cbn [negb].
  2:{ unfold lift. cbn [fst snd].
      repeat split; try reflexivity; try (intros; discriminate).
      intros _. eexists. reflexivity. }
  unfold bind at 1. unfold lift at 1.
  destruct (strip_slash data_dir) as [e0|dir] eqn:Hstrip.
  { cbn [fst snd]. repeat split; try reflexivity; intros; discriminate. }
  unfold bind, modify, gets, for_range.
  cbn -[for_each load_body energies_path].
  set (s1 := set_sscha_energies _ _).
  pose proof (for_each_preserves untouched_by_load_pass
                (load_body alat get_energy_forces read_scf with_unit_cell
                   loadtxt dir population)
                (seq 0 n) (load_body_untouched dir population) s1) as H.
  unfold untouched_by_load_pass in H. subst s1.
  cbn [N structures energies dyn_0 T0 rho current_dyn current_T q
         set_sscha_energies set_stresses set_forces set_N] in H.
  destruct (for_each _ _ _) as [[e|u] s2]; cbn [fst snd] in *;
    injection H as H1 H2 H3 H4 H5 H6 H7 H8 H9.
  - repeat split; try assumption; try discriminate.
    intros; assumption.
  - unfold lift. destruct (loadtxt (energies_path dir population)) as [e|en];
      cbn -[energies_path]; repeat split; try assumption; try discriminate;
      intros; assumption.
Qed.

(** X4. Whatever the files hold, [load] never stores a structure: the list of
    structures, like the models, the temperatures and [q], is the prior one.
    A [data_dir] that is not a directory raises [IOError] before anything is
    assigned; once the directory check has passed, [N] is the requested size
    whether the call returns or not; and when the call raises, the weights and
    the ground-truth energies are the prior ones. *)
Theorem load_frame (data_dir : string) (population : Z) (n : nat) s :
  let out := load_ data_dir population n s in
  (structures (snd out) = structures s
   /\ dyn_0 (snd out) = dyn_0 s /\ T0 (snd out) = T0 s
   /\ current_dyn (snd out) = current_dyn s
   /\ current_T (snd out) = current_T s
   /\ q (snd out) = q s)
  /\ (isdir data_dir = false -> exists msg, out = (inl (IOError msg), s))
  /\ (forall dir, isdir data_dir = true -> strip_slash data_dir = ok dir ->
        N (snd out) = n)
  /\ (forall e, fst out = inl e ->
        rho (snd out) = rho s /\ energies (snd out) = energies s).
Proof.
  exact (load_assigns data_dir population n s).
Qed.

(** X5. With a requested size of 0 the loop of [load] has no pass: in a valid
    directory the call returns as soon as the energy file is read, the weights
    are the empty array [np.ones(0)], the energies are the content of the
    file, and the model energies are left with the shape [(0, N_atoms, 3)] of
    the second allocation. *)
Theorem load_empty (data_dir dir : string) (population : Z) s (en : Np.ndarray) :
  isdir data_dir = true ->
  strip_slash data_dir = ok dir ->
  loadtxt (energies_path dir population) = ok en ->
  let out := load_ data_dir population 0 s in
  fst out = ok tt
  /\ N (snd out) = 0
  /\ rho (snd out) = NdArray (Np.ones [0])
  /\ energies (snd out) = NdArray en
  /\ sscha_energies (snd out) = NdArray (Np.zeros [0; N_atoms (dyn_0 s); 3])
  /\ sscha_forces (snd out) = sscha_forces s
  /\ structures (snd out) = structures s.
Proof.
  intros Hdir Hstrip Hen. cbv zeta. unfold load. rewrite Hdir. cbn [negb].
  unfold bind at 1. unfold lift at 1. rewrite Hstrip. unfold ok.
  unfold bind, modify, gets, for_range, lift, ret.
  cbn -[energies_path]. rewrite Hen.
  cbn. repeat split.
Qed.

End LoadFrame.

Lemma load_empty_witness :
  let out :=
    load Example.N_atoms Example.alat Example.get_energy_forces
      Example.read_scf Example.with_unit_cell Example.isdir Example.loadtxt
      "data/" 1 0 Example.fresh in
  fst out = ok tt
  /\ N (snd out) = 0
  /\ rho (snd out) = NdArray (Np.ones [0])
  /\ energies (snd out) = NdArray (Np.mkarr [3] [0%R; 0%R; 0%R])
  /\ sscha_energies (snd out) = NdArray (Np.zeros [0; 1; 3])
  /\ sscha_forces (snd out) = PyList []
  /\ structures (snd out) = [].
Proof.
  apply (load_empty Example.N_atoms Example.alat Example.get_energy_forces
           Example.read_scf Example.with_unit_cell Example.isdir
           Example.loadtxt "data/" "data" 1 Example.fresh
           (Np.mkarr [3] [0%R; 0%R; 0%R])); reflexivity.
Defined.

(** ** The trailing slash of [data_dir] *)

Lemma last_char_snoc (d : string) (c : ascii) :
  last_char (d ++ String c EmptyString) = Some c.
Proof.
  induction d as [|c' d IH]; [reflexivity|].
  cbn [String.append last_char]. rewrite IH.
  destruct (d ++ String c EmptyString)%string eqn:E; [|reflexivity].
  destruct d; discriminate.
Qed.

Lemma drop_last_snoc (d : string) (c : ascii) :
  drop_last (d ++ String c EmptyString) = d.
Proof.
  induction d as [|c' d IH]; [reflexivity|].
  cbn [String.append drop_last]. rewrite IH.
  destruct (d ++ String c EmptyString)%string eqn:E; [|reflexivity].
  destruct d; discriminate.
Qed.

Lemma append_two (d : string) (c c' : ascii) :
  (d ++ String c (String c' EmptyString))%string
  = ((d ++ String c EmptyString) ++ String c' EmptyString)%string.
Proof.
  induction d as [|x d IH]; [reflexivity|].
  cbn [String.append]. rewrite IH. reflexivity.
Qed.

Section TrailingSlash.

Context {Structure Phonons : Type}.
Variable N_atoms : Phonons -> nat.
Variable alat : Phonons -> R.
Variable get_energy_forces : Phonons -> Structure -> result (R * Np.ndarray).
Variable read_scf : string -> R -> result Structure.
Variable with_unit_cell : Structure -> Phonons -> Structure.
Variable isdir : string -> bool.
Variable loadtxt : string -> result Np.ndarray.
Implicit Types s : Ensemble Structure Phonons.

(** X6. [load] drops exactly one trailing slash of [data_dir]: a directory
    name followed by ["/"] is read as the name itself, a name that ends in
    another character is kept, so that when the file system takes both
    spellings for directories, loading from ["dir/"] does what loading from
    ["dir"] does. *)
Theorem load_trailing_slash (d : string) (c : ascii) (population : Z)
    (n : nat) s :
  c <> "/"%char ->
  isdir (d ++ String c "/") = true ->
  isdir (d ++ String c "") = true ->
  strip_slash (d ++ String c "/") = ok (d ++ String c "")%string
  /\ strip_slash (d ++ String c "") = ok (d ++ String c "")%string
  /\ load N_atoms alat get_energy_forces read_scf with_unit_cell isdir loadtxt
       (d ++ String c "/") population n s
     = load N_atoms alat get_energy_forces read_scf with_unit_cell isdir
         loadtxt (d ++ String c "") population n s.
Proof.
  intros Hc Hdir Hdir'.
  assert (E1 : strip_slash (d ++ String c "/") = ok (d ++ String c "")%string).
  { unfold strip_slash.
    rewrite (append_two d c "/"), last_char_snoc, drop_last_snoc.
    reflexivity. }
  assert (E2 : strip_slash (d ++ String c "") = ok (d ++ String c "")%string).
  { unfold strip_slash. rewrite last_char_snoc.
    destruct (Ascii.eqb_spec c "/"%char) as [E|_]; [contradiction | reflexivity]. }
  split; [exact E1|]. split; [exact E2|].
  unfold load. rewrite Hdir, Hdir'.
  cbn [negb]. unfold bind at 1 3. unfold lift at 1 3. rewrite E1, E2.
  reflexivity.
Qed.

End TrailingSlash.

Lemma load_trailing_slash_witness :
  strip_slash "data/" = ok "data"%string
  /\ strip_slash "data" = ok "data"%string
  /\ load Example.N_atoms Example.alat Example.get_energy_forces
       Example.read_scf Example.with_unit_cell Example.isdir Example.loadtxt
       "data/" 1 2 Example.fresh
     = load Example.N_atoms Example.alat Example.get_energy_forces
         Example.read_scf Example.with_unit_cell Example.isdir Example.loadtxt
         "data" 1 2 Example.fresh.
Proof.
  apply (load_trailing_slash Example.N_atoms Example.alat
           Example.get_energy_forces Example.read_scf Example.with_unit_cell
           Example.isdir Example.loadtxt "dat" "a"%char 1 2 Example.fresh).
  - discriminate.
  - reflexivity.
  - reflexivity.
Defined.

(** ** The estimators under a rescaling of the weights *)

Local Open Scope R_scope.

Lemma binop_scale_left (lambda : R) (a b : Np.ndarray) :
  Np.binop Rmult (Np.map_arr (fun x => lambda * x) a) b
  = rmap (Np.map_arr (fun x => lambda * x)) (Np.binop Rmult a b).
Proof.
  unfold Np.binop. cbn [Np.map_arr Np.shape].
  destruct (Np.broadcast_shapes (Np.shape a) (Np.shape b)) as [rs|];
    [|reflexivity].
  unfold ok, rmap, Np.map_arr at 2. cbn [Np.shape Np.data]. do 2 f_equal.
  rewrite map_map. apply map_ext. intros k.
  change (Np.mkarr (Np.shape a) (map (fun x => lambda * x) (Np.data a)))
    with (Np.map_arr (fun x => lambda * x) a).
  rewrite bget_map_arr by ring. ring.
Qed.

Lemma asarray_scale (lambda : R) (v : pyobj) :
  asarray (py_scale lambda v) = Np.map_arr (fun x => lambda * x) (asarray v).
Proof.
  destruct v as [l|a]; [|reflexivity].
  unfold Np.map_arr. cbn. rewrite length_map. reflexivity.
Qed.

Lemma py_mul_scale_left (lambda : R) (x y : pyobj) :
  py_mul (py_scale lambda x) y = rmap (py_scale lambda) (py_mul x y).
Proof.
  unfold py_mul.
  replace (is_list (py_scale lambda x)) with (is_list x) by (destruct x; reflexivity).
  destruct (is_list x && is_list y); [reflexivity|].
  rewrite asarray_scale. unfold Np.mul. rewrite binop_scale_left.
  destruct (Np.binop Rmult (asarray x) (asarray y)); reflexivity.
Qed.

Section EstimatorScaling.

Context {Structure Phonons : Type}.
Implicit Types s : Ensemble Structure Phonons.

(** X7. The value of [get_effective_sample_size] is not invariant under a
    rescaling of the weights: multiplying every weight by [lambda <> 0]
    divides it by [lambda] (and a call that raises still raises the same
    exception). *)
Theorem effective_sample_size_scaling (lambda : R) s :
  lambda <> 0 ->
  get_effective_sample_size (scale_weights lambda s)
  = rmap (fun x => x / lambda) (get_effective_sample_size s).
Proof.
  intros Hl. unfold get_effective_sample_size, scale_weights.
  cbn [rho N set_rho]. rewrite py_sum_scale.
  destruct (rho s) as [l|a]; [reflexivity|].
  cbn [py_scale py_square rbind rmap ok]. unfold ok. f_equal.
  unfold py_sum, Np.sum, Np.square, Np.map_arr. cbn [asarray Np.data Np.shape].
  rewrite !map_map.
  replace (Rsum (map (fun x => lambda * x * (lambda * x)) (Np.data a)))
    with (lambda * lambda * Rsum (map (fun x => x * x) (Np.data a))).
  - unfold Rdiv. rewrite !Rinv_mult.
    set (t := / Rsum (map (fun x => x * x) (Np.data a))).
    field. exact Hl.
  - rewrite <- Rsum_map_scal. apply Rsum_map_ext_in. intros x _. ring.
Qed.

(** X8. [get_average_energy] is homogeneous in the weights, in both modes:
    multiplying every weight by [lambda] multiplies the value by [lambda],
    because the sum is divided by [N] and not by the sum of the weights. *)
Theorem average_energy_scaling (lambda : R) (subtract_sscha : bool) s :
  get_average_energy subtract_sscha (scale_weights lambda s)
  = rmap (fun x => lambda * x) (get_average_energy subtract_sscha s).
Proof.
  unfold get_average_energy, scale_weights.
  cbn [rho N energies sscha_energies set_rho].
  destruct subtract_sscha.
  - destruct (py_sub (energies s) (sscha_energies s)) as [e|d]; [reflexivity|].
    cbn [rbind]. rewrite py_mul_scale_left.
    destruct (py_mul (rho s) d) as [e|p]; [reflexivity|].
    cbn [rbind rmap ok]. unfold ok. f_equal.
    rewrite py_sum_scale. unfold Rdiv. ring.
  - rewrite py_mul_scale_left.
    destruct (py_mul (rho s) (energies s)) as [e|p]; [reflexivity|].
    cbn [rbind rmap ok]. unfold ok. f_equal.
    rewrite py_sum_scale. unfold Rdiv. ring.
Qed.

Lemma Rsum_repeat (c : R) (n : nat) : Rsum (repeat c n) = INR n * c.
Proof.
  induction n as [|n IH].
  - simpl. ring.
  - cbn [repeat Rsum fold_right]. fold (Rsum (repeat c n)).
    rewrite IH, S_INR. ring.
Qed.

(** X9. With the weights [np.ones(N)] that [load] assigns last, and at least
    one configuration, [get_effective_sample_size] returns [N]. *)
Theorem effective_sample_size_unit_weights s :
  (1 <= N s)%nat ->
  rho s = NdArray (Np.ones [N s]) ->
  get_effective_sample_size s = ok (INR (N s)).
Proof.
  intros HN Hrho. unfold get_effective_sample_size. rewrite Hrho.
  cbn [py_square rbind ok]. unfold ok. f_equal.
  unfold py_sum, Np.sum, Np.square, Np.map_arr, Np.ones.
  cbn [asarray Np.data Np.shape]. rewrite size_of_1d.
  assert (E : map (fun x => x * x) (repeat 1 (N s)) = repeat 1 (N s)).
  { clear HN Hrho. induction (N s) as [|n IH]; [reflexivity|].
    cbn [repeat map]. rewrite IH. f_equal. ring. }
  rewrite E, Rsum_repeat.
  assert (0 < INR (N s)) by (apply lt_0_INR; lia).
  field. lra.
Qed.

End EstimatorScaling.

Lemma effective_sample_size_scaling_witness :
  get_effective_sample_size (scale_weights 2 Example.two_configurations)
  = rmap (fun x => x / 2) (get_effective_sample_size Example.two_configurations).
Proof.
  apply (effective_sample_size_scaling 2 Example.two_configurations). lra.
Defined.

Lemma effective_sample_size_unit_weights_witness :
  get_effective_sample_size Example.two_configurations = ok (INR 2).
Proof.
  apply (effective_sample_size_unit_weights Example.two_configurations).
  - simpl. lia.
  - reflexivity.
Defined.

(** ** The estimators before the arrays exist *)

Section EstimatorsOnLists.

Context {Structure Phonons : Type}.
Variable N_atoms : Phonons -> nat.
Implicit Types s : Ensemble Structure Phonons.

(** X10. As long as the weights, the energies and the forces are the Python
    lists of the constructor (or any lists), no estimator returns a number:
    the effective sample size, the average energy in both modes and the
    average force all raise [TypeError], whatever [N] is. *)
Theorem estimators_raise_on_lists s (lr le ls lf lg : list R) :
  rho s = PyList lr ->
  energies s = PyList le ->
  sscha_energies s = PyList ls ->
  forces s = PyList lf ->
  sscha_forces s = PyList lg ->
  (exists msg, get_effective_sample_size s = inl (TypeError msg))
  /\ (exists msg, get_average_energy false s = inl (TypeError msg))
  /\ (exists msg, get_average_energy true s = inl (TypeError msg))
  /\ (exists msg, get_average_forces N_atoms s = inl (TypeError msg)).
Proof.
  intros Hr He Hs Hf Hg.
  unfold get_effective_sample_size, get_average_energy, get_average_forces.
  rewrite Hr, He, Hs, Hf, Hg.
  repeat split; eexists; reflexivity.
Qed.

End EstimatorsOnLists.

Lemma estimators_raise_on_lists_witness :
  (exists msg, get_effective_sample_size Example.fresh = inl (TypeError msg))
  /\ (exists msg, get_average_energy false Example.fresh = inl (TypeError msg))
  /\ (exists msg, get_average_energy true Example.fresh = inl (TypeError msg))
  /\ (exists msg,
        get_average_forces Example.N_atoms Example.fresh = inl (TypeError msg)).
Proof.
  apply (estimators_raise_on_lists Example.N_atoms Example.fresh [] [] [] [] []);
    reflexivity.
Defined.

(** ** The average force and the size of the ensemble *)

Section AverageForcesShapes.

Context {Structure Phonons : Type}.
Variable N_atoms : Phonons -> nat.
Implicit Types s : Ensemble Structure Phonons.

Local Open Scope nat_scope.

Lemma tile_weights_shape (n a : nat) (d : list R) :
  Np.shape (Np.tile (Np.mkarr [n] d) [a; 3; 1]) = [a * 1; 3; 1 * n].
Proof. reflexivity. Qed.

(** X11. On a loaded ensemble [get_average_forces] can only be evaluated for
    1 or 3 configurations: for every other [N] the weights tiled to
    [(N_atoms, 3, N)] cannot be broadcast against the forces of shape
    [(N, N_atoms, 3)], and the call raises [ValueError]. *)
Theorem average_forces_raises s :
  loaded N_atoms s ->
  N s <> 1 -> N s <> 3 ->
  get_average_forces N_atoms s
  = inl (ValueError "operands could not be broadcast together").
Proof.
  intros L H1 H3.
  destruct (loaded_rho _ _ L) as (dr & Er & _).
  destruct (loaded_forces _ _ L) as (df & Ef & _).
  destruct (loaded_sscha_forces _ _ L) as (dg & Eg & _).
  unfold get_average_forces. rewrite Er, Ef, Eg.
  unfold py_sub. cbn [is_list andb asarray].
  unfold Np.sub. rewrite binop_same_shape by reflexivity.
  cbn [rbind ok asarray Np.shape]. unfold Np.mul, Np.binop.
  rewrite tile_weights_shape. cbn [Np.shape].
  unfold Np.broadcast_shapes.
  cbn [length Nat.max Np.pad Nat.sub repeat app Np.bshape].
  rewrite Nat.mul_1_l.
  destruct (Nat.eqb_spec (N s) 3) as [E|_]; [contradiction|].
  destruct (Nat.eqb_spec (N s) 1) as [E|_]; [contradiction|].
  cbn [Nat.eqb]. reflexivity.
Qed.

End AverageForcesShapes.

Lemma average_forces_raises_witness :
  get_average_forces Example.N_atoms Example.two_configurations
  = inl (ValueError "operands could not be broadcast together").
Proof.
  apply (average_forces_raises Example.N_atoms Example.two_configurations).
  - exact two_configurations_loaded.
  - discriminate.
  - discriminate.
Defined.

(** ** The mass vector of the gradient computation *)

Local Open Scope nat_scope.

Lemma set_slice_length (l : list R) (lo hi : nat) (v : R) :
  length (set_slice l lo hi v) = length l.
Proof.
  unfold set_slice. rewrite length_map, length_seq. reflexivity.
Qed.

Lemma set_slice_nth (l : list R) (lo hi : nat) (v : R) (k : nat) :
  k < length l ->
  nth k (set_slice l lo hi v) 0%R
  = if (lo <=? k) && (k <? hi) then v else nth k l 0%R.
Proof.
  intros Hk. unfold set_slice, vat.
  set (f := fun j => if (lo <=? j) && (j <? hi) then v else nth j l 0%R).
  rewrite (nth_indep _ 0%R (f 0)) by (rewrite length_map, length_seq; exact Hk).
  rewrite map_nth, seq_nth by exact Hk. reflexivity.
Qed.

Section MassVector.

Context {Structure Phonons : Type}.
Variable N_atoms : Phonons -> nat.
Variable atom : Phonons -> list string.
Variable masses : Phonons -> list (string * R).
Implicit Types s : Ensemble Structure Phonons.

Local Abbreviation mass := (mass_of Phonons atom masses).
Local Abbreviation fill := (fill_masses Phonons atom masses).

Lemma slice_index (i k : nat) :
  ((3 * i <=? k) && (k <? 3 * i + 3)) = (k / 3 =? i).
Proof.
  pose proof (Nat.div_mod_eq k 3) as E.
  pose proof (Nat.mod_upper_bound k 3 ltac:(lia)) as Hm.
  destruct (Nat.eqb_spec (k / 3) i) as [Hi|Hi].
  - apply andb_true_iff. split; [apply Nat.leb_le | apply Nat.ltb_lt]; lia.
  - apply andb_false_iff.
    destruct (Nat.lt_ge_cases (k / 3) i); [left; apply Nat.leb_gt | right; apply Nat.ltb_ge]; lia.
Qed.

(** The slices written for the atoms of [l], when every one has a mass. *)
Lemma fill_masses_spec (dyn : Phonons) (l : list nat) :
  forall m,
    (forall i, In i l -> exists x, mass dyn i = ok x) ->
    exists m',
      fill dyn l m = ok m'
      /\ length m' = length m
      /\ forall k, k < length m ->
           (In (k / 3) l -> mass dyn (k / 3) = ok (nth k m' 0%R))
           /\ (~ In (k / 3) l -> nth k m' 0%R = nth k m 0%R).
Proof.
  induction l as [|i l IH]; intros m Hall.
  - exists m. split; [reflexivity|]. split; [reflexivity|].
    intros k _. split; [intros []|reflexivity].
  - destruct (Hall i (or_introl eq_refl)) as (x & Hx).
    cbn [fill_masses]. rewrite Hx. cbn [rbind ok].
    destruct (IH (set_slice m (3 * i) (3 * i + 3) x)
                 (fun j Hj => Hall j (or_intror Hj)))
      as (m' & Hfill & Hlen & Hk).
    rewrite set_slice_length in Hlen, Hk.
    exists m'. split; [exact Hfill|]. split; [exact Hlen|].
    intros k Hlt. destruct (Hk k Hlt) as (Hin & Hout).
    destruct (in_dec Nat.eq_dec (k / 3) l) as [Hl|Hl].
    + split; [intros _; exact (Hin Hl)|]. intros Hn. elim Hn. right. exact Hl.
    + rewrite (Hout Hl), set_slice_nth, slice_index by exact Hlt.
      destruct (Nat.eqb_spec (k / 3) i) as [E|E]; split.
      * intros _. rewrite E. exact Hx.
      * intros Hn. elim Hn. left. symmetry. exact E.
      * intros [H|H]; [elim E; symmetry; exact H | contradiction].
      * reflexivity.
Qed.

(** X12. When every atom of the current model has a mass, the mass vector is
    built: it has three entries per atom of the original model, the three
    entries of an atom of the current model hold its mass, and the entries of
    atoms that the current model does not have stay 0. Slices beyond the
    length of the vector are dropped without an error. *)
Theorem mass_vector_spec s :
  (forall i, i < N_atoms (current_dyn s) ->
     exists x, mass (current_dyn s) i = ok x) ->
  exists m,
    mass_vector N_atoms atom masses s = ok m
    /\ length m = N_atoms (dyn_0 s) * 3
    /\ (forall i c, i < N_atoms (current_dyn s) -> c < 3 ->
          3 * i + c < length m ->
          mass (current_dyn s) i = ok (nth (3 * i + c) m 0%R))
    /\ (forall k, k < length m -> N_atoms (current_dyn s) <= k / 3 ->
          nth k m 0%R = 0%R).
Proof.
  intros Hall. unfold mass_vector.
  destruct (fill_masses_spec (current_dyn s)
              (seq 0 (N_atoms (current_dyn s)))
              (repeat 0%R (N_atoms (dyn_0 s) * 3)))
    as (m & Hfill & Hlen & Hk).
  { intros i Hi. apply in_seq in Hi. apply Hall. lia. }
  rewrite repeat_length in Hlen, Hk.
  exists m. split; [exact Hfill|]. split; [exact Hlen|]. split.
  - intros i c Hi Hc Hlt. rewrite Hlen in Hlt.
    destruct (Hk (3 * i + c) Hlt) as (Hin & _).
    assert (E : (3 * i + c) / 3 = i).
    { rewrite Nat.mul_comm, Nat.div_add_l by lia.
      rewrite Nat.div_small by exact Hc. lia. }
    rewrite E in Hin. apply Hin. apply in_seq. lia.
  - intros k Hlt Hge. rewrite Hlen in Hlt.
    destruct (Hk k Hlt) as (_ & Hout).
    rewrite Hout.
    + apply nth_repeat.
    + intros Hin. apply in_seq in Hin. lia.
Qed.

End MassVector.

Lemma mass_vector_spec_witness :
  exists m,
    mass_vector Diatomic.N_atoms Diatomic.atom Diatomic.masses
      Diatomic.one_configuration = ok m
    /\ length m = 2 * 3
    /\ (forall i c, i < 2 -> c < 3 -> 3 * i + c < length m ->
          mass_of nat Diatomic.atom Diatomic.masses 0 i
          = ok (nth (3 * i + c) m 0%R))
    /\ (forall k, k < length m -> 2 <= k / 3 -> nth k m 0%R = 0%R).
Proof.
  apply (mass_vector_spec Diatomic.N_atoms Diatomic.atom Diatomic.masses
           Diatomic.one_configuration).
  intros [|[|i]] Hi.
  - eexists. reflexivity.
  - eexists. reflexivity.
  - unfold Diatomic.N_atoms in Hi. lia.
Defined.

(** ** The shape of the gradient *)

Section GradientShape.

Context {Structure Phonons : Type}.
Variable N_atoms : Phonons -> nat.
Variable atom : Phonons -> list string.
Variable masses : Phonons -> list (string * R).
Variable dynmat_shape : Phonons -> list nat.
Variable DyagDinQ : Phonons -> nat -> result (list R * list (list R)).
Variable get_displacements : Structure -> Phonons -> result Np.ndarray.
Implicit Types s : Ensemble Structure Phonons.

Lemma xbinop_wf (f : xreal -> xreal -> xreal) (a b c : X.xarray) :
  X.binop f a b = ok c -> X.wf c.
Proof.
  unfold X.binop.
  destruct (Np.broadcast_shapes _ _) as [rs|]; [|discriminate].
  intros H. injection H as <-. unfold X.wf. cbn [X.data X.shape].
  rewrite length_map, length_seq. reflexivity.
Qed.

Lemma xiadd_shape (acc c acc' : X.xarray) :
  X.iadd acc c = ok acc' -> X.shape acc' = X.shape acc /\ X.wf acc'.
Proof.
  unfold X.iadd.
  destruct (X.binop X.add acc c) as [e|r] eqn:E; [discriminate|].
  cbn [rbind].
  destruct (list_eq_dec Nat.eq_dec (X.shape r) (X.shape acc)) as [Hs|Hs];
    [|discriminate].
  intros H. injection H as <-. split; [exact Hs|].
  eapply xbinop_wf. exact E.
Qed.

Lemma accumulate_shape (_m_ w : list R) (pols : list (list R)) s (l : list nat) :
  forall acc acc',
    X.wf acc ->
    accumulate N_atoms get_displacements _m_ w pols s l acc = ok acc' ->
    X.shape acc' = X.shape acc /\ X.wf acc'.
Proof.
  induction l as [|i l IH]; intros acc acc' Hwf H.
  - injection H as <-. split; [reflexivity | exact Hwf].
  - cbn [accumulate] in H.
    destruct (config_term _ _ _ _ _ s i) as [e|g]; [discriminate|].
    cbn [rbind] in H.
    destruct (py_getitem _ (rho s) i) as [e|r]; [discriminate|].
    cbn [rbind] in H.
    destruct (X.binop X.mul (X.map_arr X.neg g) (X.of_array r)) as [e|c];
      [discriminate|].
    cbn [rbind] in H.
    destruct (X.iadd acc c) as [e|acc1] eqn:E; [discriminate|].
    cbn [rbind] in H.
    destruct (xiadd_shape _ _ _ E) as (Hs1 & Hwf1).
    destruct (IH acc1 acc' Hwf1 H) as (Hs & Hwf').
    split; [congruence | exact Hwf'].
Qed.

(** X13. A gradient that is returned has the shape of the dynamical matrix
    [dynmats[0]] of the current model, with one entry per position, whatever
    the number of configurations: a contribution that does not broadcast into
    that shape raises instead. *)
Theorem gradient_shape s (g : X.xarray) :
  get_free_energy_gradient_respect_to_dyn N_atoms atom masses dynmat_shape
    DyagDinQ get_displacements s = ok g ->
  X.shape g = dynmat_shape (current_dyn s) /\ X.wf g.
Proof.
  unfold get_free_energy_gradient_respect_to_dyn.
  destruct (mass_vector N_atoms atom masses s) as [e|_m_]; [discriminate|].
  cbn [rbind].
  destruct (DyagDinQ (current_dyn s) 0) as [e|wp]; [discriminate|].
  cbn [rbind]. unfold gradient_from.
  destruct (pols_shape_ok _ _ _); [|discriminate].
  destruct (accumulate _ _ _ _ _ s _ _) as [e|acc] eqn:E; [discriminate|].
  cbn [rbind]. intros H. injection H as <-.
  assert (Hz : X.wf (X.zeros (dynmat_shape (current_dyn s)))).
  { unfold X.wf, X.zeros. cbn [X.data X.shape]. apply repeat_length. }
  destruct (accumulate_shape _ _ _ _ _ _ _ Hz E) as (Hs & Hwf).
  unfold X.wf, X.map_arr in *. cbn [X.shape X.data] in *.
  rewrite length_map. split; [exact Hs | exact Hwf].
Qed.

End GradientShape.

Lemma gradient_shape_witness :
  exists g,
    get_free_energy_gradient_respect_to_dyn Diatomic.N_atoms Diatomic.atom
      Diatomic.masses Diatomic.dynmat_shape Diatomic.DyagDinQ
      Diatomic.get_displacements Diatomic.one_configuration = ok g
    /\ X.shape g = [6; 6] /\ X.wf g.
Proof.
  eexists. split; [reflexivity|].
  apply (gradient_shape Diatomic.N_atoms Diatomic.atom Diatomic.masses
           Diatomic.dynmat_shape Diatomic.DyagDinQ Diatomic.get_displacements
           Diatomic.one_configuration).
  reflexivity.
Defined.

(** ** Reweighting after a call to [load] *)

Section ReweightingAfterLoad.

Context {Structure Phonons : Type}.
Variable N_atoms : Phonons -> nat.
Variable alat : Phonons -> R.
Variable get_energy_forces : Phonons -> Structure -> result (R * Np.ndarray).
Variable GetRatioProbability :
  Phonons -> Structure -> R -> R -> Phonons -> result R.
Variable read_scf : string -> R -> result Structure.
Variable with_unit_cell : Structure -> Phonons -> Structure.
Variable isdir : string -> bool.
Variable loadtxt : string -> result Np.ndarray.
Implicit Types s : Ensemble Structure Phonons.

Lemma update_weights_without_structures (newdyn : Phonons) (newT : R) s :
  1 <= N s -> structures s = [] ->
  update_weights get_energy_forces GetRatioProbability newdyn newT s
  = (inl structures_index_error, set_current_T newT s).
Proof.
  intros HN Hst. rewrite update_weights_unfold.
  destruct (N s) as [|m]; [lia|]. cbn [seq]. rewrite for_each_cons.
  unfold update_weights_body, bind, structure_at.
  cbn [structures set_current_T]. rewrite Hst. reflexivity.
Qed.

(** X14. Since [load] stores no structure but sets [N], reweighting an
    ensemble that went through [load] with [N >= 1] in a valid directory,
    having no structures before, stops in its first pass at
    [self.structures[i]]: the call raises that index error and the only
    field it changes is [current_T]. *)
Theorem reweighting_after_load_raises (data_dir dir : string) (population : Z)
    (n : nat) (newdyn : Phonons) (newT : R) s :
  1 <= n ->
  isdir data_dir = true ->
  strip_slash data_dir = ok dir ->
  structures s = [] ->
  let s' :=
    snd (load N_atoms alat get_energy_forces read_scf with_unit_cell isdir
           loadtxt data_dir population n s) in
  update_weights get_energy_forces GetRatioProbability newdyn newT s'
  = (inl structures_index_error, set_current_T newT s').
Proof.
  intros Hn Hdir Hstrip Hst s'.
  pose proof (load_assigns N_atoms alat get_energy_forces read_scf
                with_unit_cell isdir loadtxt data_dir population n s)
    as ((Hs & _) & _ & HN & _).
  cbv zeta in Hs, HN. fold s' in Hs, HN.
  apply update_weights_without_structures.
  - rewrite (HN dir Hdir Hstrip). exact Hn.
  - rewrite Hs. exact Hst.
Qed.

End ReweightingAfterLoad.

Lemma reweighting_after_load_raises_witness :
  let s' :=
    snd (load Example.N_atoms Example.alat Example.get_energy_forces
           Example.read_scf Example.with_unit_cell Example.isdir
           Example.loadtxt "data" 1 2 Example.fresh) in
  update_weights Example.get_energy_forces Example.GetRatioProbability 1 1%R s'
  = (inl structures_index_error, set_current_T 1%R s').
Proof.
  apply (reweighting_after_load_raises Example.N_atoms Example.alat
           Example.get_energy_forces Example.GetRatioProbability
           Example.read_scf Example.with_unit_cell Example.isdir
           Example.loadtxt "data" "data" 1 2 1 1%R Example.fresh).
  - lia.
  - reflexivity.
  - reflexivity.
  - reflexivity.
Defined.

(** ** An atom without a mass *)

Section MissingMass.

Context {Structure Phonons : Type}.
Variable N_atoms : Phonons -> nat.
Variable atom : Phonons -> list string.
Variable masses : Phonons -> list (string * R).
Variable dynmat_shape : Phonons -> list nat.
Variable DyagDinQ : Phonons -> nat -> result (list R * list (list R)).
Variable get_displacements : Structure -> Phonons -> result Np.ndarray.
Implicit Types s : Ensemble Structure Phonons.

Lemma fill_masses_raises (dyn : Phonons) (l1 l2 : list nat) (i : nat) (e : exn) :
  forall m,
    (forall j, In j l1 -> exists x, mass_of Phonons atom masses dyn j = ok x) ->
    mass_of Phonons atom masses dyn i = inl e ->
    fill_masses Phonons atom masses dyn (l1 ++ i :: l2) m = inl e.
Proof.
  induction l1 as [|j l1 IH]; intros m Hall Hi.
  - cbn [app fill_masses]. rewrite Hi. reflexivity.
  - destruct (Hall j (or_introl eq_refl)) as (x & Hx).
    cbn [app fill_masses]. rewrite Hx. cbn [rbind ok].
    apply IH; [|exact Hi]. intros k Hk. apply Hall. right. exact Hk.
Qed.

(** X15. When the first atom of the current model that has no mass (its
    index is not in [atom], or its species is not a key of [masses]) is atom
    [i], building the mass vector raises that lookup error, and the gradient
    computation raises it too, before the dynamical matrix is diagonalized:
    the outcome does not depend on what [DyagDinQ] would do. *)
Theorem gradient_raises_without_mass s (i : nat) (e : exn) :
  i < N_atoms (current_dyn s) ->
  (forall j, j < i ->
     exists x, mass_of Phonons atom masses (current_dyn s) j = ok x) ->
  mass_of Phonons atom masses (current_dyn s) i = inl e ->
  mass_vector N_atoms atom masses s = inl e
  /\ get_free_energy_gradient_respect_to_dyn N_atoms atom masses dynmat_shape
       DyagDinQ get_displacements s = inl e.
Proof.
  intros Hi Hall He.
  assert (E : mass_vector N_atoms atom masses s = inl e).
  { unfold mass_vector.
    replace (seq 0 (N_atoms (current_dyn s)))
      with (seq 0 i ++ i :: seq (S i) (N_atoms (current_dyn s) - S i)).
    - apply fill_masses_raises; [|exact He].
      intros j Hj. apply in_seq in Hj. apply Hall. lia.
    - change (i :: seq (S i) (N_atoms (current_dyn s) - S i))
        with (seq i (S (N_atoms (current_dyn s) - S i))).
      rewrite <- seq_app. f_equal. lia. }
  split; [exact E|].
  unfold get_free_energy_gradient_respect_to_dyn. rewrite E. reflexivity.
Qed.

End MissingMass.

Module Unknown.

(** The two-atom model with a second atom of a species without a mass. *)
Definition atom (dyn : nat) : list string := ["H"%string; "X"%string].

End Unknown.

Lemma gradient_raises_without_mass_witness :
  mass_vector Diatomic.N_atoms Unknown.atom Diatomic.masses
    Diatomic.one_configuration = inl (KeyError "X")
  /\ get_free_energy_gradient_respect_to_dyn Diatomic.N_atoms Unknown.atom
       Diatomic.masses Diatomic.dynmat_shape Diatomic.DyagDinQ
       Diatomic.get_displacements Diatomic.one_configuration
     = inl (KeyError "X").
Proof.
  apply (gradient_raises_without_mass Diatomic.N_atoms Unknown.atom
           Diatomic.masses Diatomic.dynmat_shape Diatomic.DyagDinQ
           Diatomic.get_displacements Diatomic.one_configuration 1).
  - unfold Diatomic.N_atoms. simpl. lia.
  - intros [|j] Hj; [|lia]. eexists. reflexivity.
  - reflexivity.
Defined.

(** ** The average force of a single one-atom configuration *)

Section AverageForcesValue.

Context {Structure Phonons : Type}.
Variable N_atoms : Phonons -> nat.
Implicit Types s : Ensemble Structure Phonons.

Local Open Scope R_scope.

(** X16. For one configuration of a one-atom model, [get_average_forces]
    returns one number: three times the weight times the sum of the three
    components of the residual force, not the three weighted components. *)
Theorem average_forces_single s :
  loaded N_atoms s ->
  N s = 1%nat ->
  N_atoms (dyn_0 s) = 1%nat ->
  get_average_forces N_atoms s
  = ok (3 * weight s 0
        * ((force N_atoms s 0 0 0 - model_force N_atoms s 0 0 0)
           + (force N_atoms s 0 0 1 - model_force N_atoms s 0 0 1)
           + (force N_atoms s 0 0 2 - model_force N_atoms s 0 0 2))).
Proof.
  intros L HN HA.
  destruct (loaded_rho _ _ L) as (dr & Er & Hr).
  destruct (loaded_forces _ _ L) as (df & Ef & Hf).
  destruct (loaded_sscha_forces _ _ L) as (dg & Eg & Hg).
  unfold get_average_forces, weight, force, model_force.
  rewrite Er, Ef, Eg, HN, HA in *. clear Er Ef Eg L.
  cbn in Hr, Hf, Hg.
  destruct dr as [|r [|? ?]]; try discriminate.
  destruct df as [|f0 [|f1 [|f2 [|? ?]]]]; try discriminate.
  destruct dg as [|g0 [|g1 [|g2 [|? ?]]]]; try discriminate.
  cbn. unfold ok. f_equal. unfold Np.sum, Rsum. cbn. field.
Qed.

End AverageForcesValue.

Lemma average_forces_single_witness :
  get_average_forces Example.N_atoms Example.one_configuration
  = ok (3 * weight Example.one_configuration 0
        * ((force Example.N_atoms Example.one_configuration 0 0 0
            - model_force Example.N_atoms Example.one_configuration 0 0 0)
           + (force Example.N_atoms Example.one_configuration 0 0 1
              - model_force Example.N_atoms Example.one_configuration 0 0 1)
           + (force Example.N_atoms Example.one_configuration 0 0 2
              - model_force Example.N_atoms Example.one_configuration 0 0 2)))%R.
Proof.
  apply (average_forces_single Example.N_atoms Example.one_configuration).
  - constructor; try reflexivity; eexists; split; reflexivity.
  - reflexivity.
  - reflexivity.
Defined.

(** * The non-finite entries of the gradient *)

(** ** Broadcast indices stay inside the operands *)

Local Open Scope nat_scope.








(** ** NaN is absorbing *)








(** ** The masked diagonal *)





(** ** Every entry of the gradient is NaN when a mode is retained *)




Section GradientNaN.

Context {Structure Phonons : Type}.
Variable N_atoms : Phonons -> nat.
Variable atom : Phonons -> list string.
Variable masses : Phonons -> list (string * R).
Variable dynmat_shape : Phonons -> list nat.
Variable DyagDinQ : Phonons -> nat -> result (list R * list (list R)).
Variable get_displacements : Structure -> Phonons -> result Np.ndarray.
Implicit Types s : Ensemble Structure Phonons.




End GradientNaN.

(** ** Without a retained mode nothing is contracted *)

Local Open Scope R_scope.




Section GradientWithoutModes.

Context {Structure Phonons : Type}.
Variable N_atoms : Phonons -> nat.
Variable atom : Phonons -> list string.
Variable masses : Phonons -> list (string * R).
Variable dynmat_shape : Phonons -> list nat.
Variable DyagDinQ : Phonons -> nat -> result (list R * list (list R)).
Variable get_displacements : Structure -> Phonons -> result Np.ndarray.
Implicit Types s : Ensemble Structure Phonons.




End GradientWithoutModes.

(** ** The free-energy gradient: the translational modes *)


Section ModeExclusion.

Context {Structure Phonons : Type}.
Variable N_atoms : Phonons -> nat.
Variable atom : Phonons -> list string.
Variable masses : Phonons -> list (string * R).
Variable dynmat_shape : Phonons -> list nat.
Variable get_displacements : Structure -> Phonons -> result Np.ndarray.
Implicit Types s : Ensemble Structure Phonons.

Local Notation gradient D s :=
  (get_free_energy_gradient_respect_to_dyn N_atoms atom masses dynmat_shape
     D get_displacements s).




End ModeExclusion.

